(** * Time-Surfer-Proxy: a shallow embedding of [main.go]

    The proxy of [main.go] resolves an inbound request to a Wayback Machine
    snapshot (or to the fixed GeoCities mirror), forwards it with a bounded
    retry loop and rewrites HTML bodies on the way back.  This file embeds

    - the Go string primitives the program uses ([strings.Index],
      [strings.HasPrefix], [strings.Replace], [strings.Split], slicing with
      its bounds check, [strconv.Itoa]);
    - [removeWaybackToolbar], [getWaybackURL], [extractRedirectURL];
    - the two halves of [handleRequest]: the routing front and the retry
      loop, with the calls to the network taken as oracles;

    and states the properties of the specification over them.

    Go strings are byte sequences; they are [string] here (a list of
    8-bit [ascii]).  Go [int] and [time.Duration] are [Z]; the one place
    where 64-bit wrap-around can be observed (the doubling of the retry
    delay) writes it out. *)

From Stdlib Require Import ZArith List String Ascii Bool Lia.
From Stdlib Require Import DecimalString.
Import ListNotations.

Local Open Scope string_scope.
Local Open Scope Z_scope.

(** ** Go string primitives *)

Module GoStrings.

(** A run-time panic of the Go program is [None]; [bind] threads it. *)
Definition bind {A B} (x : option A) (k : A -> option B) : option B :=
  match x with
  | Some a => k a
  | None => None
  end.

Definition len (s : string) : Z := Z.of_nat (String.length s).

(** [strings.HasPrefix(s, p)]. *)
Definition HasPrefix (s p : string) : bool := String.prefix p s.

(** Offset of the first occurrence of [sep] in [s], scanning left to
    right. *)
Fixpoint find (sep s : string) : option nat :=
  if String.prefix sep s then Some 0%nat
  else match s with
       | EmptyString => None
       | String _ s' => option_map S (find sep s')
       end.

(** [strings.Index(s, sep)]: the byte offset of the first occurrence,
    [-1] when there is none. *)
Definition Index (s sep : string) : Z :=
  match find sep s with
  | Some n => Z.of_nat n
  | None => -1
  end.

(** [strings.Contains(s, sub)]. *)
Definition Contains (s sub : string) : bool := 0 <=? Index s sub.

Fixpoint take (n : nat) (s : string) : string :=
  match n, s with
  | S k, String c s' => String c (take k s')
  | _, _ => EmptyString
  end.

Fixpoint drop (n : nat) (s : string) : string :=
  match n, s with
  | S k, String _ s' => drop k s'
  | _, _ => s
  end.

(** [s[:hi]]: Go panics unless [0 <= hi <= len(s)]. *)
Definition slice_to (s : string) (hi : Z) : option string :=
  if (0 <=? hi) && (hi <=? len s) then Some (take (Z.to_nat hi) s) else None.

(** [s[lo:]]: Go panics unless [0 <= lo <= len(s)]. *)
Definition slice_from (s : string) (lo : Z) : option string :=
  if (0 <=? lo) && (lo <=? len s) then Some (drop (Z.to_nat lo) s) else None.

(** [strings.Replace(s, old, new, -1)] for a non-empty [old]: every
    non-overlapping occurrence, leftmost first.  [skip] counts the bytes
    of the occurrence just replaced that are still to be passed over. *)
Fixpoint replace_from (old new : string) (skip : nat) (s : string) : string :=
  match s with
  | EmptyString => EmptyString
  | String c s' =>
      match skip with
      | S k => replace_from old new k s'
      | O =>
          if String.prefix old s
          then new ++ replace_from old new (String.length old - 1) s'
          else String c (replace_from old new 0 s')
      end
  end.

Definition ReplaceAll (s old new : string) : string :=
  replace_from old new 0 s.

(** [strings.Split(s, sep)] for a one-byte separator. *)
Fixpoint Split (s : string) (sep : ascii) : list string :=
  match s with
  | EmptyString => [EmptyString]
  | String c s' =>
      let rest := Split s' sep in
      if Ascii.eqb c sep then EmptyString :: rest
      else match rest with
           | h :: t => String c h :: t
           | [] => [String c EmptyString]
           end
  end.

(** [strings.Join(parts, sep)]. *)
Definition Join (parts : list string) (sep : string) : string :=
  String.concat sep parts.

(** [strconv.Itoa(n)]. *)
Definition Itoa (n : Z) : string := NilZero.string_of_int (Z.to_int n).

(** The double quote, which the markers and patterns of the program
    contain. *)
Definition dq : string := String (ascii_of_nat 34) EmptyString.

(** Line feed. *)
Definition lf : ascii := ascii_of_nat 10.

End GoStrings.

Import GoStrings.

(** ** The toolbar strip: [removeWaybackToolbar] *)

Module Toolbar.

Definition beginMarker : string := "<!-- BEGIN WAYBACK TOOLBAR INSERT -->".
Definition endMarker : string := "<!-- END WAYBACK TOOLBAR INSERT -->".

(** The constant of [html[end+36:]], which the source comments as
    "36 is length of end comment". *)
Definition endSkip : Z := 36.

Definition scriptTag : string :=
  "<script src=" ++ dq ++ "//archive.org/includes/athena.js" ++ dq
    ++ " type=" ++ dq ++ "text/javascript" ++ dq ++ "></script>".

(** The first statement of [removeWaybackToolbar]: the span cut.  Both
    slices carry Go's bounds check. *)
Definition stripToolbar (html : string) : option string :=
  let start := Index html beginMarker in
  let end_ := Index html endMarker in
  if negb (start =? -1) && negb (end_ =? -1) then
    bind (slice_to html start) (fun before =>
    bind (slice_from html (end_ + endSkip)) (fun after =>
    Some (before ++ after)))
  else Some html.

(** The second statement: every occurrence of the tracking script tag is
    deleted. *)
Definition stripScript (html : string) : string :=
  ReplaceAll html scriptTag "".

Definition removeWaybackToolbar (html : string) : option string :=
  option_map stripScript (stripToolbar html).

(** What the specification asks of the span cut when both markers are there and
    in order: [body] without the bytes from the first begin marker to the
    last byte of the first end marker. *)
Definition cut_span (html : string) : string :=
  take (Z.to_nat (Index html beginMarker)) html
    ++ drop (Z.to_nat (Index html endMarker + len endMarker)) html.

End Toolbar.

(** ** URLs and the two resolvers *)

(** The fields of Go's [url.URL] that the program reads or writes. *)
Record URL := mkURL {
  Scheme : string;
  Host : string;
  Path : string;
  RawQuery : string
}.

(** [net/url] is a library the program calls; the program needs
    [url.Parse] (which can fail) and [u.Query().Get(key)] (the first value
    of [key] in the parsed query, the empty string when there is none).
    A value is cut out of the query of the URL it was parsed from and
    percent-decoding never lengthens it, which is the one law used below. *)
Class NetURL := {
  Parse : string -> option URL;
  QueryGet : URL -> string -> string;
  QueryGet_shorter :
    forall raw u key,
      Parse raw = Some u ->
      QueryGet u key = EmptyString
      \/ (String.length (QueryGet u key) < String.length raw)%nat
}.

Module Escape.

Definition hexDigits : list ascii := list_ascii_of_string "0123456789ABCDEF".

Definition hex (n : nat) : ascii := nth n hexDigits "0"%char.

Definition between (lo c hi : ascii) : bool :=
  (nat_of_ascii lo <=? nat_of_ascii c)%nat
    && (nat_of_ascii c <=? nat_of_ascii hi)%nat.

Definition isAlnum (c : ascii) : bool :=
  between "a" c "z" || between "A" c "Z" || between "0" c "9".

(** [shouldEscape(c, encodeQueryComponent)] of [net/url]. *)
Definition shouldEscape (c : ascii) : bool :=
  negb (isAlnum c
        || Ascii.eqb c "-" || Ascii.eqb c "_" || Ascii.eqb c "."
        || Ascii.eqb c "~").

(** [url.QueryEscape]. *)
Fixpoint QueryEscape (s : string) : string :=
  match s with
  | EmptyString => EmptyString
  | String c s' =>
      if Ascii.eqb c " " then String "+" (QueryEscape s')
      else if shouldEscape c then
        String "%"
          (String (hex (nat_of_ascii c / 16))
             (String (hex (nat_of_ascii c mod 16)) (QueryEscape s')))
      else String c (QueryEscape s')
  end.

End Escape.

(** *** The snapshot resolver: [getWaybackURL] *)

Module Resolver.

(** A decoded JSON document, as [encoding/json] hands it to an
    [interface{}]. *)
#[local] Set Warnings "-register-all".
Inductive json :=
| JNull
| JBool (b : bool)
| JNumber (n : Z)
| JString (s : string)
| JArray (items : list json)
| JObject (fields : list (string * json)).

(** What [client.Get(cdxURL)] can come back with: a transport error, or
    a response with its status and a body that either is not JSON (with
    the decoder's message) or is a JSON document. *)
Inductive CdxReply :=
| GetError (err : string)
| GetResponse (StatusCode : Z) (body : string + json).

Inductive result :=
| Ok (waybackURL : string)
| Err (msg : string).

Definition jsonKind (v : json) : string :=
  match v with
  | JNull => "null"
  | JBool _ => "bool"
  | JNumber _ => "number"
  | JString _ => "string"
  | JArray _ => "array"
  | JObject _ => "object"
  end.

(** [json.NewDecoder(body).Decode(&cdxResp)] with
    [cdxResp []interface{}]: an array fills the slice, [null] leaves it
    nil, any other document is a type error. *)
Definition decodeSlice (body : string + json) : string + list json :=
  match body with
  | inl e => inl e
  | inr (JArray items) => inr items
  | inr JNull => inr []
  | inr v =>
      inl ("json: cannot unmarshal " ++ jsonKind v
             ++ " into Go value of type []interface {}")
  end.

Definition archivePrefix : string := "http://web.archive.org/web/".

Definition cdxQuery (originalURL date : string) : string :=
  "http://web.archive.org/cdx/search/cdx?url=" ++ Escape.QueryEscape originalURL
    ++ "&from=" ++ date
    ++ "&filter=statuscode:200&filter=mimetype:text/html&limit=1&output=json".

(** [getWaybackURL], with [client.Get] as the oracle [get]. *)
Definition getWaybackURL (get : string -> CdxReply)
    (originalURL date : string) : result :=
  match get (cdxQuery originalURL date) with
  | GetError e => Err e
  | GetResponse code body =>
      if negb (code =? 200) then Err ("CDX API returned status " ++ Itoa code)
      else
        match decodeSlice body with
        | inl e => Err e
        | inr cdxResp =>
            if (List.length cdxResp <? 2)%nat
            then Err ("no archived version found for " ++ originalURL)
            else
              match nth 1 cdxResp JNull with
              | JArray row =>
                  if (List.length row <? 2)%nat
                  then Err "invalid CDX response format"
                  else
                    match nth 1 row JNull with
                    | JString timestamp =>
                        Ok (archivePrefix ++ timestamp ++ "/" ++ originalURL)
                    | _ => Err "invalid timestamp in CDX response"
                    end
              | _ => Err "invalid CDX response format"
              end
        end
  end.

Definition isDigit (c : ascii) : bool := Escape.between "0" c "9".

(** "A 14-digit string". *)
Definition is14Digits (s : string) : bool :=
  (String.length s =? 14)%nat && forallb isDigit (list_ascii_of_string s).

End Resolver.

(** *** The redirect-parameter extractor: [extractRedirectURL] *)

Module Redirect.
Section WithURL.

Context {net : NetURL}.

Definition redirectParams : list string :=
  [ "redirect"; "redir"; "next"; "url"; "u"; "dest";
    "destination"; "forward"; "return"; "RelayState";
    "goto"; "callback"; "continue"; "target" ].

Definition isAbsoluteURL (value : string) : bool :=
  HasPrefix value "http://" || HasPrefix value "https://".

Definition isAbsolutePath (value : string) : bool := HasPrefix value "/".

(** The [for _, param := range redirectParams] loop: [Some] is the
    [return] taken inside it, [None] is falling out of the loop. *)
Fixpoint scanParams (parsedURL : URL) (params : list string) : option string :=
  match params with
  | [] => None
  | param :: rest =>
      let value := QueryGet parsedURL param in
      if negb (String.eqb value "") then
        if isAbsoluteURL value then Some value
        else if isAbsolutePath value then
          Some (Scheme parsedURL ++ "://" ++ Host parsedURL ++ value)
        else scanParams parsedURL rest
      else scanParams parsedURL rest
  end.

Definition extractRedirectURL (redirectURL : string) : string :=
  match Parse redirectURL with
  | None => redirectURL
  | Some parsedURL =>
      match scanParams parsedURL redirectParams with
      | Some destination => destination
      | None => redirectURL
      end
  end.

(** The extractor as the specification words it: the first candidate, in
    list order, whose value is an absolute URL or an absolute path. *)
Definition qualifies (parsedURL : URL) (param : string) : bool :=
  isAbsoluteURL (QueryGet parsedURL param)
    || isAbsolutePath (QueryGet parsedURL param).

Definition destinationOf (parsedURL : URL) (param : string) : string :=
  let value := QueryGet parsedURL param in
  if isAbsoluteURL value then value
  else Scheme parsedURL ++ "://" ++ Host parsedURL ++ value.

Definition extract_spec (url : string) : string :=
  match Parse url with
  | None => url
  | Some parsedURL =>
      match List.find (qualifies parsedURL) redirectParams with
      | Some param => destinationOf parsedURL param
      | None => url
      end
  end.

End WithURL.
End Redirect.

(** ** HTTP values *)

Module HTTP.

(** [http.Header], keys in canonical form. *)
Definition Header := list (string * list string).

(** [h.Get(key)]: the first value of [key], the empty string when the
    key is absent. *)
Fixpoint Get (h : Header) (key : string) : string :=
  match h with
  | [] => ""
  | (k, vs) :: rest =>
      if String.eqb k key then hd "" vs else Get rest key
  end.

(** [h.Set(key, value)]: [key] now has the single value [value]. *)
Fixpoint Set_ (h : Header) (key value : string) : Header :=
  match h with
  | [] => [(key, [value])]
  | (k, vs) :: rest =>
      if String.eqb k key then (k, [value]) :: rest
      else (k, vs) :: Set_ rest key value
  end.

(** An upstream [*http.Response], as [ModifyResponse] sees it. *)
Record Response := mkResponse {
  StatusCode : Z;
  RespHeader : Header;
  RespBody : string;
  ContentLength : Z
}.

(** [httptest.ResponseRecorder]: what a handler wrote. *)
Record Recorder := mkRecorder {
  Code : Z;
  HeaderMap : Header;
  Body : string
}.

(** [httptest.NewRecorder()] starts at status 200 with nothing
    written. *)
Definition NewRecorder : Recorder :=
  {| Code := 200; HeaderMap := []; Body := "" |}.

(** [http.StatusText]. *)
Definition StatusText (code : Z) : string :=
  match code with
  | 100 => "Continue" | 101 => "Switching Protocols"
  | 102 => "Processing" | 103 => "Early Hints"
  | 200 => "OK" | 201 => "Created" | 202 => "Accepted"
  | 203 => "Non-Authoritative Information" | 204 => "No Content"
  | 205 => "Reset Content" | 206 => "Partial Content"
  | 207 => "Multi-Status" | 208 => "Already Reported" | 226 => "IM Used"
  | 300 => "Multiple Choices" | 301 => "Moved Permanently"
  | 302 => "Found" | 303 => "See Other" | 304 => "Not Modified"
  | 305 => "Use Proxy" | 307 => "Temporary Redirect"
  | 308 => "Permanent Redirect"
  | 400 => "Bad Request" | 401 => "Unauthorized"
  | 402 => "Payment Required" | 403 => "Forbidden" | 404 => "Not Found"
  | 405 => "Method Not Allowed" | 406 => "Not Acceptable"
  | 407 => "Proxy Authentication Required" | 408 => "Request Timeout"
  | 409 => "Conflict" | 410 => "Gone" | 411 => "Length Required"
  | 412 => "Precondition Failed" | 413 => "Request Entity Too Large"
  | 414 => "Request URI Too Long" | 415 => "Unsupported Media Type"
  | 416 => "Requested Range Not Satisfiable"
  | 417 => "Expectation Failed" | 418 => "I'm a teapot"
  | 421 => "Misdirected Request" | 422 => "Unprocessable Entity"
  | 423 => "Locked" | 424 => "Failed Dependency" | 425 => "Too Early"
  | 426 => "Upgrade Required" | 428 => "Precondition Required"
  | 429 => "Too Many Requests"
  | 431 => "Request Header Fields Too Large"
  | 451 => "Unavailable For Legal Reasons"
  | 500 => "Internal Server Error" | 501 => "Not Implemented"
  | 502 => "Bad Gateway" | 503 => "Service Unavailable"
  | 504 => "Gateway Timeout" | 505 => "HTTP Version Not Supported"
  | 506 => "Variant Also Negotiates" | 507 => "Insufficient Storage"
  | 508 => "Loop Detected" | 510 => "Not Extended"
  | 511 => "Network Authentication Required"
  | _ => ""
  end.

Fixpoint zeros (n : nat) : string :=
  match n with
  | O => EmptyString
  | S k => String "0" (zeros k)
  end.

Definition padLeft (width : nat) (digits : string) : string :=
  zeros (width - String.length digits) ++ digits.

(** [fmt.Sprintf("%03d", n)]. *)
Definition fmt03d (n : Z) : string :=
  if n <? 0 then "-" ++ padLeft 2 (Itoa (- n)) else padLeft 3 (Itoa n).

(** [recorder.Result().StatusCode]: the recorded code, 200 when it is
    0. *)
Definition ResultStatusCode (rec : Recorder) : Z :=
  if Code rec =? 0 then 200 else Code rec.

(** [recorder.Result().Status]. *)
Definition ResultStatus (rec : Recorder) : string :=
  fmt03d (ResultStatusCode rec) ++ " " ++ StatusText (ResultStatusCode rec).

(** What the handler wrote to the client's [http.ResponseWriter]:
    either the copy of a recorder (headers, [WriteHeader(Code)], body) or
    a call [http.Error(w, msg, code)]. *)
Inductive Written :=
| Copy (code : Z) (header : Header) (body : string)
| Error (msg : string) (code : Z).

Definition copyOf (rec : Recorder) : Written :=
  Copy (Code rec) (HeaderMap rec) (Body rec).

Definition statusOf (w : Written) : Z :=
  match w with
  | Copy code _ _ => code
  | Error _ code => code
  end.

End HTTP.

Import HTTP.

(** ** The retrying forwarder: the loop of [handleRequest] *)

Module Forwarder.

(** The two copies of the loop differ in their messages only. *)
Inductive Mode := FixedOrigin | ArchiveMode.

Definition exhaustedMsg (mode : Mode) (maxRetries : Z) : string :=
  match mode with
  | FixedOrigin =>
      "Failed to connect to geocities.restorativland.org after "
        ++ Itoa maxRetries ++ " attempts"
  | ArchiveMode =>
      "Failed to connect to archived content after "
        ++ Itoa maxRetries ++ " attempts"
  end.

Definition noResponsePrefix (mode : Mode) : string :=
  match mode with
  | FixedOrigin => "Error proxying request to geocities.restorativland.org: "
  | ArchiveMode => "Error proxying request: "
  end.

(** One call [proxy.ServeHTTP(recorder, r)] under the deferred
    [recover]: the recorder as the call left it, and the recovered value
    when the call panicked. *)
Record Attempt := mkAttempt {
  rec : Recorder;
  panicked : option string
}.

(** [time.Duration] is a signed 64-bit count of nanoseconds. *)
Definition int64 (z : Z) : Z := (z + 2 ^ 63) mod 2 ^ 64 - 2 ^ 63.

(** The variables of the loop, the shared [retryDelay], and the trace
    of what the loop did: the arguments of [time.Sleep] in order and the
    number of calls to the proxy. *)
Record Loop := mkLoop {
  lastErr : option string;
  recorder : option Recorder;
  shouldRetry : bool;
  retryDelay : Z;
  slept : list Z;
  calls : nat
}.

Definition start (retryDelay : Z) : Loop :=
  {| lastErr := None; recorder := None; shouldRetry := false;
     retryDelay := retryDelay; slept := []; calls := O |}.

Inductive Step :=
| Return (w : Written) (st : Loop)
| Continue (st : Loop)
| Break (st : Loop).

(** [resp.StatusCode == 502 ||
     strings.Contains(resp.Status, "connection refused")]. *)
Definition retryable (rec : Recorder) : bool :=
  (ResultStatusCode rec =? 502)
    || Contains (ResultStatus rec) "connection refused".

Definition success (rec : Recorder) : bool :=
  (200 <=? ResultStatusCode rec) && (ResultStatusCode rec <? 400).

(** [if attempt > 0]: sleep for the shared delay, then double it. *)
Definition pause (attempt : nat) (st : Loop) : Loop :=
  match attempt with
  | O => st
  | S _ =>
      {| lastErr := lastErr st; recorder := recorder st;
         shouldRetry := shouldRetry st;
         retryDelay := int64 (retryDelay st * 2);
         slept := slept st ++ [retryDelay st];
         calls := calls st |}
  end.

(** A fresh recorder, then the proxy call under the deferred [recover],
    which stores the recovered value in [lastErr]. *)
Definition call (a : Attempt) (st : Loop) : Loop :=
  {| lastErr :=
       match panicked a with
       | Some v => Some ("proxy panic: " ++ v)
       | None => lastErr st
       end;
     recorder := Some (rec a);
     shouldRetry := shouldRetry st; retryDelay := retryDelay st;
     slept := slept st; calls := S (calls st) |}.

(** [lastErr = fmt.Errorf("proxy returned status %d", resp.StatusCode)]. *)
Definition failed (a : Attempt) (st : Loop) : Loop :=
  {| lastErr :=
       Some ("proxy returned status " ++ Itoa (ResultStatusCode (rec a)));
     recorder := recorder st; shouldRetry := shouldRetry st;
     retryDelay := retryDelay st; slept := slept st; calls := calls st |}.

(** [shouldRetry = true]. *)
Definition markRetry (st : Loop) : Loop :=
  {| lastErr := lastErr st; recorder := recorder st; shouldRetry := true;
     retryDelay := retryDelay st; slept := slept st; calls := calls st |}.

(** The body of the [for] loop at index [attempt], [a] being what the
    proxy call of this iteration does. *)
Definition iteration (attempt : nat) (a : Attempt) (st : Loop) : Step :=
  let st := call a (pause attempt st) in
  if success (rec a) then Return (copyOf (rec a)) st
  else
    let st := failed a st in
    if retryable (rec a) then Continue (markRetry st)
    else Break st.

(** [for attempt := 0; attempt < maxRetries; attempt++]: [remaining]
    is [maxRetries - attempt].  [None] is leaving the loop by exhaustion
    or [break]; [Some w] is the [return] inside it. *)
Fixpoint loop (serve : nat -> Attempt) (remaining attempt : nat) (st : Loop)
    : option Written * Loop :=
  match remaining with
  | O => (None, st)
  | S remaining' =>
      match iteration attempt (serve attempt) st with
      | Return w st' => (Some w, st')
      | Continue st' => loop serve remaining' (S attempt) st'
      | Break st' => (None, st')
      end
  end.

(** How a run of the handler ends: a response was written, or the
    handler itself panicked. *)
Inductive Outcome :=
| Responded (w : Written)
| Fault (msg : string).

(** [lastErr != nil]. *)
Definition isSome {A} (x : option A) : bool :=
  match x with
  | Some _ => true
  | None => false
  end.

Definition nilDereference : string :=
  "runtime error: invalid memory address or nil pointer dereference".

(** "Handle final result": the code after the loop. *)
Definition finish (mode : Mode) (maxRetries : Z) (st : Loop) : Outcome :=
  if shouldRetry st && isSome (lastErr st) then
    Responded (Error (exhaustedMsg mode maxRetries) 502)
  else
    match recorder st with
    | Some rec => Responded (copyOf rec)
    | None =>
        match lastErr st with
        | Some err => Responded (Error (noResponsePrefix mode ++ err) 500)
        | None => Fault nilDereference
        end
    end.

Record Run := mkRun {
  outcome : Outcome;
  final : Loop
}.

(** The retry block of [handleRequest]: [maxRetries] and [retryDelay]
    are the values of the two flags when the block is entered, [serve k]
    is what the proxy call of attempt index [k] does. *)
Definition forward (mode : Mode) (maxRetries retryDelay : Z)
    (serve : nat -> Attempt) : Run :=
  match loop serve (Z.to_nat maxRetries) 0 (start retryDelay) with
  | (Some w, st) => {| outcome := Responded w; final := st |}
  | (None, st) => {| outcome := finish mode maxRetries st; final := st |}
  end.

(** The classification of the specification. *)
Inductive Class := SUCCESS | RETRYABLE_FAILURE | TERMINAL_FAILURE.

Definition classify (a : Attempt) : Class :=
  if success (rec a) then SUCCESS
  else if retryable (rec a) then RETRYABLE_FAILURE
  else TERMINAL_FAILURE.

(** The delays of the specification's backoff: [delay * 2^k] for
    [k < n], in the 64-bit arithmetic of [time.Duration]. *)
Definition backoff (delay : Z) (n : nat) : list Z :=
  map (fun k => int64 (delay * 2 ^ Z.of_nat k)) (seq 0 n).

End Forwarder.

(** ** The screenshot strip of the fixed-origin mode *)

Module Screenshot.

Definition placeholder : string := "<!-- Screenshot removed for performance -->".

(** The pattern is [<div\s+class="card-image">.*?</div>].  In Go's
    syntax [\s] is one of tab, line feed, form feed, carriage return and
    space, and [.] is any character but line feed. *)
Definition isSpace (c : ascii) : bool :=
  let n := nat_of_ascii c in
  ((n =? 9) || (n =? 10) || (n =? 12) || (n =? 13) || (n =? 32))%nat.

Definition openTag : string := "<div".
Definition classAttr : string := "class=" ++ dq ++ "card-image" ++ dq ++ ">".
Definition closeTag : string := "</div>".

(** [.*?</div>] at the head of [s]: the number of bytes of the shortest
    match.  The lazy star stops at the first [</div>] and cannot pass a
    line feed. *)
Fixpoint lazyToClose (s : string) : option nat :=
  if String.prefix closeTag s then Some (String.length closeTag)
  else match s with
       | EmptyString => None
       | String c s' =>
           if Ascii.eqb c lf then None else option_map S (lazyToClose s')
       end.

(** The rest of [\s+] (one space is already consumed), then
    [class="card-image">], then [.*?</div>].  The attribute starts with a
    non-space, so the spaces are all consumed. *)
Fixpoint spacesThenClass (s : string) : option nat :=
  match s with
  | EmptyString => None
  | String c s' =>
      if isSpace c then option_map S (spacesThenClass s')
      else if String.prefix classAttr s then
        option_map (Nat.add (String.length classAttr))
          (lazyToClose (drop (String.length classAttr) s))
      else None
  end.

(** The length of the match of the pattern that starts at the head of
    [s], when there is one. *)
Definition matchAt (s : string) : option nat :=
  if String.prefix openTag s then
    match drop (String.length openTag) s with
    | String c s' =>
        if isSpace c
        then option_map (Nat.add (String.length openTag + 1)) (spacesThenClass s')
        else None
    | EmptyString => None
    end
  else None.

(** [re.ReplaceAllString(html, placeholder)]: the leftmost match, then
    the leftmost match after it, and so on. *)
Fixpoint replaceFrom (skip : nat) (s : string) : string :=
  match s with
  | EmptyString => EmptyString
  | String c s' =>
      match skip with
      | S k => replaceFrom k s'
      | O =>
          match matchAt s with
          | Some n => placeholder ++ replaceFrom (n - 1) s'
          | None => String c (replaceFrom 0 s')
          end
      end
  end.

Definition stripScreenshots (html : string) : string := replaceFrom 0 html.

End Screenshot.

(** ** [handleRequest] *)

Module Router.
Section WithURL.

Context {net : NetURL}.

Import Forwarder Resolver Redirect.

(** The parts of the inbound [*http.Request] that [handleRequest]
    reads: [r.Host], [r.URL.Path], [r.URL.RawQuery] and the rendering
    [r.URL.String()]. *)
Record Request := mkRequest {
  ReqHost : string;
  URLPath : string;
  URLRawQuery : string;
  URLString : string
}.

Definition geocitiesHost : string := "geocities.restorativland.org".
Definition geocitiesOrigin : string := "https://geocities.restorativland.org".

Definition isGeocitiesRequest (r : Request) : bool :=
  Contains (ReqHost r) geocitiesHost || String.eqb (ReqHost r) geocitiesHost.

(** The fixed-origin [proxy.Director]: the URL of the outbound
    request. *)
Definition geocitiesDirector (targetURL : URL) (r : Request) : URL :=
  {| Scheme := Scheme targetURL;
     Host := Host targetURL;
     Path := if String.eqb (URLPath r) "" then "/" else URLPath r;
     RawQuery := URLRawQuery r |}.

Definition isHTML (resp : Response) : bool :=
  Contains (Get (RespHeader resp) "Content-Type") "text/html".

Definition withBody (resp : Response) (html : string) : Response :=
  {| StatusCode := StatusCode resp;
     RespHeader := Set_ (RespHeader resp) "Content-Length" (Itoa (len html));
     RespBody := html;
     ContentLength := len html |}.

(** The fixed-origin [proxy.ModifyResponse].  The redirect branch only
    logs, but it returns early, before the rewriting, when the
    [Location] of a 3xx response does not parse. *)
Definition geocitiesModifyResponse (resp : Response) : Response :=
  let location := Get (RespHeader resp) "Location" in
  if (300 <=? StatusCode resp) && (StatusCode resp <? 400)
     && negb (String.eqb location "")
     && negb (isSome (Parse location))
  then resp
  else if isHTML resp
  then withBody resp (Screenshot.stripScreenshots (RespBody resp))
  else resp.

(** The archive-mode [proxy.ModifyResponse]; [None] is the panic of
    [removeWaybackToolbar]. *)
Definition archiveModifyResponse (resp : Response) : option Response :=
  if isHTML resp
  then option_map (withBody resp) (Toolbar.removeWaybackToolbar (RespBody resp))
  else Some resp.

(** What the transport of the reverse proxy comes back with. *)
Inductive RoundTrip :=
| TransportError (err : string)
| Upstream (resp : Response).

Definition written (code : Z) (header : Header) (body : string) : Attempt :=
  {| rec := {| Code := code; HeaderMap := header; Body := body |};
     panicked := None |}.

(** [httputil.ReverseProxy.ServeHTTP] into a fresh recorder, as far as
    the handler can observe it: a transport error or an error of the hook
    goes to the default error handler, which writes a bare 502; a panic
    of the hook leaves the recorder untouched; otherwise the headers, the
    status and the body of the rewritten response are written. *)
Definition ServeHTTP (modify : Response -> option Response) (rt : RoundTrip)
    : Attempt :=
  match rt with
  | TransportError _ => written 502 [] ""
  | Upstream resp =>
      match modify resp with
      | None =>
          {| rec := NewRecorder;
             panicked := Some "runtime error: slice bounds out of range" |}
      | Some resp' =>
          written (StatusCode resp') (RespHeader resp') (RespBody resp')
      end
  end.

(** The archive-mode front of [handleRequest], up to the decision
    whether the snapshot resolver is called and for which URL. *)
Inductive Resolution :=
| Resolve (destinationURL : string)
| Existing (waybackURL : string).

Definition absolute (r : Request) : string :=
  if negb (HasPrefix (URLString r) "http")
  then "http://" ++ ReqHost r ++ URLString r
  else URLString r.

Definition archiveRoute (r : Request) : Resolution :=
  let isWaybackURL := HasPrefix (URLString r) archivePrefix in
  let originalURL := absolute r in
  if isWaybackURL then
    let parts := Split originalURL "/" in
    if (7 <=? List.length parts)%nat then
      let originalPart := Join (skipn 6 parts) "/" in
      let destinationURL := extractRedirectURL ("http://" ++ originalPart) in
      if negb (String.eqb destinationURL ("http://" ++ originalPart))
      then Resolve destinationURL
      else Existing originalURL
    else Existing originalURL
  else Resolve (extractRedirectURL originalURL).

(** The process-wide flags and the two network oracles: the snapshot
    index and the upstream of the reverse proxy, which is asked for the
    outbound URL at each attempt. *)
Record Env := mkEnv {
  date : string;
  maxRetries : Z;
  retryDelayFlag : Z;
  cdxGet : string -> CdxReply;
  roundTrip : URL -> nat -> RoundTrip
}.

Definition respond (env : Env) (w : Written) : Run :=
  {| outcome := Responded w; final := start (retryDelayFlag env) |}.

Definition proxyArchive (env : Env) (waybackURL : string) : Run :=
  match Parse waybackURL with
  | None => respond env (Error "Error parsing Wayback URL" 500)
  | Some targetURL =>
      forward ArchiveMode (maxRetries env) (retryDelayFlag env)
        (fun k => ServeHTTP archiveModifyResponse (roundTrip env targetURL k))
  end.

Definition handleRequest (env : Env) (r : Request) : Run :=
  if isGeocitiesRequest r then
    match Parse geocitiesOrigin with
    | None =>
        respond env (Error "Error parsing geocities.restorativland.org URL" 500)
    | Some targetURL =>
        forward FixedOrigin (maxRetries env) (retryDelayFlag env)
          (fun k =>
             ServeHTTP (fun resp => Some (geocitiesModifyResponse resp))
               (roundTrip env (geocitiesDirector targetURL r) k))
    end
  else
    match archiveRoute r with
    | Existing waybackURL => proxyArchive env waybackURL
    | Resolve destinationURL =>
        match getWaybackURL (cdxGet env) destinationURL (date env) with
        | Err msg =>
            respond env (Error ("Error finding archived version: " ++ msg) 500)
        | Ok waybackURL => proxyArchive env waybackURL
        end
    end.

End WithURL.
End Router.

(** ** A model of [net/url]

    The theorems below hold for every [NetURL].  To run the program on
    concrete requests this module gives one: [url.Parse] and
    [Values.Get] of the Go library for URLs whose authority is a plain
    host with an optional numeric port.  Authorities with user
    information, bracketed IP literals or percent-escapes are outside the
    model and are rejected. *)

Module GoURL.

(** [strings.Cut(s, sep)] for a one-byte separator: the text before the
    first [sep], and the text after it when [sep] occurs. *)
Fixpoint cut (s : string) (sep : ascii) : string * option string :=
  match s with
  | EmptyString => (EmptyString, None)
  | String c s' =>
      if Ascii.eqb c sep then (EmptyString, Some s')
      else let (before, after) := cut s' sep in (String c before, after)
  end.

Definition orEmpty (o : option string) : string :=
  match o with
  | Some s => s
  | None => EmptyString
  end.

Definition isLetter (c : ascii) : bool :=
  Escape.between "a" c "z" || Escape.between "A" c "Z".

Definition isDigit (c : ascii) : bool := Escape.between "0" c "9".

Definition isCTL (c : ascii) : bool :=
  ((nat_of_ascii c <? 32) || (nat_of_ascii c =? 127))%nat.

Definition toLower (c : ascii) : ascii :=
  if Escape.between "A" c "Z" then ascii_of_nat (nat_of_ascii c + 32) else c.

Fixpoint ToLower (s : string) : string :=
  match s with
  | EmptyString => EmptyString
  | String c s' => String (toLower c) (ToLower s')
  end.

Definition unhex (c : ascii) : option nat :=
  let n := nat_of_ascii c in
  if isDigit c then Some (n - 48)%nat
  else if Escape.between "a" c "f" then Some (n - 87)%nat
  else if Escape.between "A" c "F" then Some (n - 55)%nat
  else None.

(** [unescape]: [%XX] is one byte; in a query component [+] is a
    space.  A [%] that is not followed by two hex digits is an error. *)
Fixpoint unescape (plusIsSpace : bool) (s : string) : option string :=
  match s with
  | EmptyString => Some EmptyString
  | String c rest =>
      if Ascii.eqb c "%" then
        match rest with
        | String a (String b rest') =>
            match unhex a, unhex b with
            | Some x, Some y =>
                option_map (String (ascii_of_nat (16 * x + y)))
                  (unescape plusIsSpace rest')
            | _, _ => None
            end
        | _ => None
        end
      else
        option_map
          (String (if plusIsSpace && Ascii.eqb c "+" then " "%char else c))
          (unescape plusIsSpace rest)
  end.

Inductive SchemeResult :=
| MissingScheme
| NoScheme
| HasScheme (scheme rest : string).

(** [getScheme]: letters, then letters, digits, [+], [-] and [.], up to
    a colon. *)
Fixpoint getScheme (first : bool) (s : string) : SchemeResult :=
  match s with
  | EmptyString => NoScheme
  | String c s' =>
      if isLetter c
         || (negb first
             && (isDigit c || Ascii.eqb c "+" || Ascii.eqb c "-"
                 || Ascii.eqb c "."))
      then match getScheme false s' with
           | HasScheme scheme rest => HasScheme (String c scheme) rest
           | other => other
           end
      else if Ascii.eqb c ":" then
        if first then MissingScheme else HasScheme EmptyString s'
      else NoScheme
  end.

Definition hostChar (c : ascii) : bool :=
  Escape.isAlnum c || Ascii.eqb c "-" || Ascii.eqb c "." || Ascii.eqb c "_"
  || Ascii.eqb c "~".

(** A plain host with an optional [:port] of digits. *)
Definition validHost (host : string) : bool :=
  let (name, port) := cut host ":" in
  forallb hostChar (list_ascii_of_string name)
    && forallb isDigit (list_ascii_of_string (orEmpty port)).

Definition parse (raw : string) : option URL :=
  let (u, frag) := cut raw "#" in
  if existsb isCTL (list_ascii_of_string u) then None
  else if negb (Forwarder.isSome (unescape false (orEmpty frag))) then None
  else
    match getScheme true u with
    | MissingScheme => None
    | result =>
        let scheme :=
          match result with HasScheme s _ => ToLower s | _ => EmptyString end in
        let rest0 := match result with HasScheme _ r => r | _ => u end in
        let (rest, query) := cut rest0 "?" in
        let mk host path :=
          Some {| Scheme := scheme; Host := host; Path := path;
                  RawQuery := orEmpty query |} in
        if negb (HasPrefix rest "/") && negb (String.eqb scheme "")
        then mk EmptyString EmptyString
        else if negb (HasPrefix rest "/")
                && Contains (fst (cut rest "/")) ":"
        then None
        else if (negb (String.eqb scheme "") || negb (HasPrefix rest "///"))
                && HasPrefix rest "//"
        then
          let (authority, tail) := cut (drop 2 rest) "/" in
          let path := match tail with
                      | Some t => String "/" t
                      | None => EmptyString
                      end in
          if validHost authority then
            match unescape false path with
            | Some p => mk authority p
            | None => None
            end
          else None
        else
          match unescape false rest with
          | Some p => mk EmptyString p
          | None => None
          end
    end.

(** [Values.Get] over [url.ParseQuery]: of the [&]-separated pairs that
    decode (no semicolon, valid escapes), the value of the first one
    whose key is [key]. *)
Definition pairOf (piece : string) : option (string * string) :=
  if Contains piece ";" then None
  else
    let (k, v) := cut piece "=" in
    match unescape true k, unescape true (orEmpty v) with
    | Some k', Some v' => Some (k', v')
    | _, _ => None
    end.

Fixpoint firstValue (pieces : list string) (key : string) : string :=
  match pieces with
  | [] => EmptyString
  | piece :: rest =>
      if String.eqb piece "" then firstValue rest key
      else match pairOf piece with
           | Some (k, v) =>
               if String.eqb k key then v else firstValue rest key
           | None => firstValue rest key
           end
  end.

Definition queryGet (u : URL) (key : string) : string :=
  firstValue (Split (RawQuery u) "&") key.

(** The law of [NetURL] for this model: a value is cut out of the
    query, the query out of the URL, and decoding does not lengthen. *)

Lemma cut_length (s : string) (sep : ascii) :
  (String.length (fst (cut s sep)) <= String.length s)%nat
  /\ forall t, snd (cut s sep) = Some t ->
               (String.length t < String.length s)%nat.
Proof.
  induction s as [|c s IH]; simpl.
  - split; [lia | discriminate].
  - destruct (Ascii.eqb c sep); simpl.
    + split; [lia | intros t [= <-]; lia].
    + destruct (cut s sep) as [before after]; simpl in *.
      destruct IH as [IH1 IH2].
      split; [lia | intros t Ht; specialize (IH2 t Ht); lia].
Qed.

Lemma unescape_length (plus : bool) (s : string) :
  forall t, unescape plus s = Some t ->
            (String.length t <= String.length s)%nat.
Proof.
  remember (String.length s) as n eqn:Hn.
  revert s Hn.
  induction n as [n IH] using lt_wf_ind.
  intros [|c rest] Hn t; simpl.
  - intros [= <-]; simpl; lia.
  - destruct (Ascii.eqb c "%").
    + destruct rest as [|a [|b rest']]; try discriminate.
      destruct (unhex a); try discriminate.
      destruct (unhex b); try discriminate.
      destruct (unescape plus rest') as [t'|] eqn:E; try discriminate.
      simpl. intros [= <-]. simpl in Hn.
      specialize (IH (String.length rest') ltac:(lia) rest' eq_refl t' E).
      simpl. lia.
    + destruct (unescape plus rest) as [t'|] eqn:E; try discriminate.
      simpl. intros [= <-]. simpl in Hn.
      specialize (IH (String.length rest) ltac:(lia) rest eq_refl t' E).
      simpl. lia.
Qed.

Lemma getScheme_rest (first : bool) (s scheme rest : string) :
  getScheme first s = HasScheme scheme rest ->
  (String.length rest < String.length s)%nat.
Proof.
  revert first scheme rest.
  induction s as [|c s IH]; simpl; intros first scheme rest; try discriminate.
  destruct (isLetter c || _).
  - destruct (getScheme false s) as [| |sch r] eqn:E; try discriminate.
    intros [= _ <-]. specialize (IH _ _ _ E). lia.
  - destruct (Ascii.eqb c ":"); try discriminate.
    destruct first; try discriminate.
    intros [= _ <-]. lia.
Qed.

Lemma Split_piece (s : string) (sep : ascii) (p : string) :
  In p (Split s sep) -> (String.length p <= String.length s)%nat.
Proof.
  revert p.
  induction s as [|c s IH]; simpl; intros p.
  - intros [<-|[]]. simpl; lia.
  - destruct (Ascii.eqb c sep).
    + intros [<-|Hin]; [simpl; lia | specialize (IH p Hin); lia].
    + destruct (Split s sep) as [|h t] eqn:E.
      * intros [<-|[]]. simpl. lia.
      * intros [<-|Hin].
        -- specialize (IH h (or_introl eq_refl)). simpl. lia.
        -- specialize (IH p (or_intror Hin)). lia.
Qed.

Lemma firstValue_length (pieces : list string) (key : string) (n : nat) :
  (forall p, In p pieces -> (String.length p <= n)%nat) ->
  (String.length (firstValue pieces key) <= n)%nat.
Proof.
  induction pieces as [|piece rest IH]; simpl; intros Hall.
  - lia.
  - assert (Hrest : (String.length (firstValue rest key) <= n)%nat)
      by (apply IH; intros p Hp; apply Hall; now right).
    destruct (String.eqb piece ""); [exact Hrest|].
    unfold pairOf.
    destruct (Contains piece ";"); [exact Hrest|].
    pose proof (cut_length piece "=") as [_ Hv].
    destruct (cut piece "=") as [k v]; simpl in Hv.
    destruct (unescape true k) as [k'|]; [|exact Hrest].
    destruct (unescape true (orEmpty v)) as [v'|] eqn:Ev; [|exact Hrest].
    destruct (String.eqb k' key); [|exact Hrest].
    apply unescape_length in Ev.
    specialize (Hall piece (or_introl eq_refl)).
    destruct v as [v|]; simpl in Ev.
    + specialize (Hv v eq_refl). lia.
    + lia.
Qed.

Lemma queryGet_length (u : URL) (key : string) :
  (String.length (queryGet u key) <= String.length (RawQuery u))%nat.
Proof.
  unfold queryGet. apply firstValue_length. intros p. apply Split_piece.
Qed.

Lemma parse_query (raw : string) (u : URL) :
  parse raw = Some u ->
  RawQuery u = "" \/ (String.length (RawQuery u) < String.length raw)%nat.
Proof.
  unfold parse.
  pose proof (cut_length raw "#") as [Hu _].
  destruct (cut raw "#") as [u0 frag]; simpl in Hu.
  destruct (existsb _ _); try discriminate.
  destruct (negb _); try discriminate.
  assert (Hrest : forall rest0, (String.length rest0 <= String.length u0)%nat ->
     forall scheme,
     (let (rest, query) := cut rest0 "?" in
      let mk host path :=
          Some {| Scheme := scheme; Host := host; Path := path;
                  RawQuery := orEmpty query |} in
        if negb (HasPrefix rest "/") && negb (String.eqb scheme "")
        then mk EmptyString EmptyString
        else if negb (HasPrefix rest "/")
                && Contains (fst (cut rest "/")) ":"
        then None
        else if (negb (String.eqb scheme "") || negb (HasPrefix rest "///"))
                && HasPrefix rest "//"
        then
          let (authority, tail) := cut (drop 2 rest) "/" in
          let path := match tail with
                      | Some t => String "/" t
                      | None => EmptyString
                      end in
          if validHost authority then
            match unescape false path with
            | Some p => mk authority p
            | None => None
            end
          else None
        else
          match unescape false rest with
          | Some p => mk EmptyString p
          | None => None
          end) = Some u ->
     RawQuery u = "" \/ (String.length (RawQuery u) < String.length raw)%nat).
  { intros rest0 Hle scheme.
    pose proof (cut_length rest0 "?") as [_ Hq].
    destruct (cut rest0 "?") as [rest query]; simpl in Hq.
    assert (Hgoal : forall host path,
               Some {| Scheme := scheme; Host := host; Path := path;
                       RawQuery := orEmpty query |} = Some u ->
               RawQuery u = "" \/ (String.length (RawQuery u) < String.length raw)%nat).
    { intros host path [= <-]. simpl.
      destruct query as [q|]; simpl; [right|now left].
      specialize (Hq q eq_refl). lia. }
    cbv zeta.
    destruct (negb (HasPrefix rest "/") && negb (String.eqb scheme "")); [apply Hgoal|].
    destruct (negb (HasPrefix rest "/") && _); [discriminate|].
    destruct ((negb (String.eqb scheme "") || _) && _).
    - destruct (cut (drop 2 rest) "/") as [authority tail].
      destruct (validHost authority); [|discriminate].
      destruct (unescape false _); [apply Hgoal|discriminate].
    - destruct (unescape false rest); [apply Hgoal|discriminate]. }
  destruct (getScheme true u0) as [| |scheme rest0] eqn:E; try discriminate.
  - apply Hrest. lia.
  - apply Hrest. apply getScheme_rest in E. lia.
Qed.

Lemma queryGet_shorter (raw : string) (u : URL) (key : string) :
  parse raw = Some u ->
  queryGet u key = ""
  \/ (String.length (queryGet u key) < String.length raw)%nat.
Proof.
  intros Hparse.
  pose proof (queryGet_length u key) as Hle.
  destruct (parse_query raw u Hparse) as [Hempty|Hlt].
  - left. rewrite Hempty in Hle.
    destruct (queryGet u key); [reflexivity | simpl in Hle; lia].
  - right. lia.
Qed.

#[export] Instance goURL : NetURL :=
  {| Parse := parse; QueryGet := queryGet;
     QueryGet_shorter := queryGet_shorter |}.

End GoURL.

(** * Properties *)

(** ** Strings *)

Module GoStringsFacts.

Lemma find_bound (sep s : string) (n : nat) :
  find sep s = Some n -> (n <= String.length s)%nat.
Proof.
  revert n.
  induction s as [|c s IH]; intros n; cbn [find String.length].
  - destruct (String.prefix sep ""); intros H; inversion H; lia.
  - destruct (String.prefix sep (String c s)).
    + intros H; inversion H; lia.
    + destruct (find sep s) as [m|]; cbn [option_map]; [|discriminate].
      intros H; inversion H. specialize (IH m eq_refl). lia.
Qed.

(** [strings.Index] answers [-1] or an offset inside the string. *)
Lemma Index_range (s sep : string) :
  Index s sep = -1 \/ 0 <= Index s sep <= len s.
Proof.
  unfold Index, len.
  destruct (find sep s) as [n|] eqn:E; [right|now left].
  apply find_bound in E. lia.
Qed.

Lemma length_take (n : nat) (s : string) :
  (n <= String.length s)%nat -> String.length (take n s) = n.
Proof.
  revert s.
  induction n as [|n IH]; intros [|c s]; simpl; intros H; try lia.
  rewrite IH; lia.
Qed.

Lemma take_drop (n : nat) (s : string) : take n s ++ drop n s = s.
Proof.
  revert s.
  induction n as [|n IH]; intros [|c s]; simpl; try reflexivity.
  now rewrite IH.
Qed.

Lemma drop_app (a b : string) : drop (String.length a) (a ++ b) = b.
Proof. induction a as [|c a IH]; simpl; [now destruct b | exact IH]. Qed.

Lemma length_app (a b : string) :
  String.length (a ++ b) = (String.length a + String.length b)%nat.
Proof. induction a as [|c a IH]; simpl; [reflexivity | now rewrite IH]. Qed.

Lemma append_assoc (a b c : string) : (a ++ b) ++ c = a ++ b ++ c.
Proof. induction a as [|x a IH]; simpl; [reflexivity | now rewrite IH]. Qed.

Lemma prefix_app (p s : string) : String.prefix p (p ++ s) = true.
Proof.
  induction p as [|c p IH]; simpl; [now destruct s|].
  destruct (ascii_dec c c) as [_|ne]; [exact IH | now elim ne].
Qed.

(** A prefix of a prefix. *)
Lemma prefix_trans (a b s : string) :
  String.prefix a b = true -> String.prefix b s = true ->
  String.prefix a s = true.
Proof.
  revert b s.
  induction a as [|c a IH]; intros b s; [now destruct s|].
  destruct b as [|d b]; [discriminate|].
  destruct s as [|e s]; [discriminate|].
  simpl.
  destruct (ascii_dec c d) as [<-|]; [|discriminate].
  destruct (ascii_dec c e); [apply IH | discriminate].
Qed.

Lemma prefix_length (p s : string) :
  String.prefix p s = true -> (String.length p <= String.length s)%nat.
Proof.
  revert s.
  induction p as [|c p IH]; intros s; [simpl; lia|].
  destruct s as [|d s]; [discriminate|].
  simpl.
  destruct (ascii_dec c d); [|discriminate].
  intros H. specialize (IH s H). lia.
Qed.

End GoStringsFacts.

(** ** The toolbar strip *)

Module ToolbarFacts.

Import Toolbar GoStringsFacts.

(** The end marker has 35 bytes, one fewer than the constant the cut
    skips. *)
Lemma endMarker_length : len endMarker = 35 /\ endSkip = len endMarker + 1.
Proof. split; reflexivity. Qed.

(** Without the begin marker the span cut leaves the body as it is. *)
Lemma stripToolbar_no_begin (html : string) :
  Index html beginMarker = -1 -> stripToolbar html = Some html.
Proof. unfold stripToolbar. intros ->. reflexivity. Qed.

(** Without the end marker the span cut leaves the body as it is. *)
Lemma stripToolbar_no_end (html : string) :
  Index html endMarker = -1 -> stripToolbar html = Some html.
Proof.
  unfold stripToolbar. intros ->.
  now rewrite andb_false_r.
Qed.

(** With both markers the cut keeps [html[:start]] and
    [html[end+36:]], one byte past the end marker, and it panics exactly
    when fewer than 36 bytes follow the start of the end marker. *)
Lemma stripToolbar_both (html : string) :
  Index html beginMarker <> -1 -> Index html endMarker <> -1 ->
  stripToolbar html =
    if Index html endMarker + 36 <=? len html
    then Some (take (Z.to_nat (Index html beginMarker)) html
                 ++ drop (Z.to_nat (Index html endMarker + 36)) html)
    else None.
Proof.
  intros Hb He. unfold stripToolbar, endSkip.
  destruct (Index_range html beginMarker) as [|Hrb]; [contradiction|].
  destruct (Index_range html endMarker) as [|Hre]; [contradiction|].
  apply Z.eqb_neq in Hb, He. rewrite Hb, He. simpl.
  unfold slice_to, slice_from.
  replace (0 <=? Index html beginMarker) with true by (symmetry; apply Z.leb_le; lia).
  replace (Index html beginMarker <=? len html) with true
    by (symmetry; apply Z.leb_le; lia).
  replace (0 <=? Index html endMarker + 36) with true
    by (symmetry; apply Z.leb_le; lia).
  simpl.
  destruct (Index html endMarker + 36 <=? len html); reflexivity.
Qed.

(** X3.  The function returns unless both markers are there and the body
    stops within 36 bytes of the start of the end marker. *)
Lemma removeWaybackToolbar_panics_iff (html : string) :
  removeWaybackToolbar html = None <->
  Index html beginMarker <> -1 /\ Index html endMarker <> -1
  /\ len html < Index html endMarker + 36.
Proof.
  unfold removeWaybackToolbar.
  destruct (Z.eq_dec (Index html beginMarker) (-1)) as [Hb|Hb].
  { rewrite (stripToolbar_no_begin _ Hb). simpl. split; [discriminate|tauto]. }
  destruct (Z.eq_dec (Index html endMarker) (-1)) as [He|He].
  { rewrite (stripToolbar_no_end _ He). simpl. split; [discriminate|tauto]. }
  rewrite (stripToolbar_both _ Hb He).
  destruct (Index html endMarker + 36 <=? len html) eqn:E; simpl.
  - apply Z.leb_le in E. split; [discriminate | lia].
  - apply Z.leb_gt in E. tauto.
Qed.

(** C3.  On a body made of the begin marker, the end marker and the two
    bytes [XY], both markers are found in order, the inclusive span is
    the two markers, and what is outside the span is [XY]; the cut of
    [removeWaybackToolbar] returns [Y]: it takes the byte after the end
    marker with it. *)
Theorem toolbar_cut_takes_one_byte_more :
  let html := beginMarker ++ endMarker ++ "XY" in
  Index html beginMarker = 0
  /\ Index html endMarker = len beginMarker
  /\ cut_span html = "XY"
  /\ stripToolbar html = Some "Y"
  /\ removeWaybackToolbar html = Some "Y".
Proof. repeat split; reflexivity. Qed.

(** C10.  On a body that ends with the end marker the slice
    [html[end+36:]] is out of range: the function panics and returns
    nothing. *)
Theorem toolbar_panics_on_trailing_end_marker :
  let html := "<html>" ++ beginMarker ++ "toolbar" ++ endMarker in
  len html - Index html endMarker = 35
  /\ removeWaybackToolbar html = None.
Proof. split; reflexivity. Qed.

End ToolbarFacts.

(** ** The snapshot resolver *)

Module ResolverFacts.

Import Resolver.

(** The second element of a slice, as [x[1]] after the length check. *)
Lemma nth_1_error {A} (l : list A) (d : A) :
  (List.length l <? 2)%nat = false -> nth_error l 1 = Some (nth 1 l d).
Proof.
  intros H. apply Nat.ltb_ge in H.
  destruct l as [|a [|b l]]; simpl in *; try lia. reflexivity.
Qed.

(** C6, as the code has it.  When the resolver succeeds, the index
    answered 200 with a JSON array whose second row is an array whose
    second element is a string [S], and the archive URL is the fixed
    prefix, [S], a slash and the destination.  [S] is the string the
    index sent, whatever it is. *)
Theorem getWaybackURL_shape
    (get : string -> CdxReply) (D T waybackURL : string) :
  getWaybackURL get D T = Ok waybackURL ->
  exists body rows row S,
    get (cdxQuery D T) = GetResponse 200 body
    /\ decodeSlice body = inr rows
    /\ nth_error rows 1 = Some (JArray row)
    /\ nth_error row 1 = Some (JString S)
    /\ waybackURL = "http://web.archive.org/web/" ++ S ++ "/" ++ D.
Proof.
  unfold getWaybackURL.
  destruct (get (cdxQuery D T)) as [e|code body] eqn:Hget; [discriminate|].
  destruct (code =? 200) eqn:Hcode; simpl; [|discriminate].
  apply Z.eqb_eq in Hcode. subst code.
  destruct (decodeSlice body) as [e|rows] eqn:Hdec; [discriminate|].
  destruct (List.length rows <? 2)%nat eqn:Hrows; [discriminate|].
  destruct (nth 1 rows JNull) as [| | | |row|] eqn:Hrow; try discriminate.
  destruct (List.length row <? 2)%nat eqn:Hlen; [discriminate|].
  destruct (nth 1 row JNull) as [| | |S| |] eqn:Hts; try discriminate.
  intros [= <-].
  exists body, rows, row, S.
  split; [reflexivity|]. split; [exact Hdec|].
  split; [|split; [|reflexivity]].
  - pose proof (nth_1_error rows JNull Hrows) as E. now rewrite Hrow in E.
  - pose proof (nth_1_error row JNull Hlen) as E. now rewrite Hts in E.
Qed.

(** The converse: such an answer of the index makes the resolver
    succeed. *)
Lemma getWaybackURL_complete
    (get : string -> CdxReply) (D T : string) body rows row S :
  get (cdxQuery D T) = GetResponse 200 body ->
  decodeSlice body = inr rows ->
  nth_error rows 1 = Some (JArray row) ->
  nth_error row 1 = Some (JString S) ->
  getWaybackURL get D T = Ok (archivePrefix ++ S ++ "/" ++ D).
Proof.
  intros Hget Hdec Hrow Hts. unfold getWaybackURL.
  rewrite Hget. simpl. rewrite Hdec.
  destruct rows as [|r0 [|r1 rows]]; try discriminate.
  injection Hrow as ->. simpl.
  destruct row as [|c0 [|c1 row]]; try discriminate.
  injection Hts as ->. reflexivity.
Qed.

(** The index as the end-to-end example of the specification has it:
    a header row and one capture of [http://example.com/]. *)
Definition exampleIndex (timestamp : string) (cdxURL : string) : CdxReply :=
  GetResponse 200
    (inr (JArray
            [ JArray [JString "urlkey"; JString "timestamp"; JString "original"];
              JArray [JString "com,example)/"; JString timestamp;
                      JString "http://example.com/"] ])).

Lemma getWaybackURL_shape_witness :
  getWaybackURL (exampleIndex "20020405123000") "http://example.com/" "20020401"
    = Ok "http://web.archive.org/web/20020405123000/http://example.com/"
  /\ exists body rows row S,
       exampleIndex "20020405123000" (cdxQuery "http://example.com/" "20020401")
         = GetResponse 200 body
       /\ decodeSlice body = inr rows
       /\ nth_error rows 1 = Some (JArray row)
       /\ nth_error row 1 = Some (JString S)
       /\ "http://web.archive.org/web/20020405123000/http://example.com/"
          = "http://web.archive.org/web/" ++ S ++ "/" ++ "http://example.com/".
Proof.
  split; [reflexivity|].
  apply (getWaybackURL_shape (exampleIndex "20020405123000")
           "http://example.com/" "20020401").
  reflexivity.
Defined.

(** C6 as stated fails: the resolver succeeds with a timestamp that is
    not a 14-digit string when the index sends one. *)
Lemma getWaybackURL_timestamp_unchecked :
  getWaybackURL (exampleIndex "2002") "http://example.com/" "20020401"
    = Ok ("http://web.archive.org/web/" ++ "2002" ++ "/" ++ "http://example.com/")
  /\ is14Digits "2002" = false.
Proof. split; reflexivity. Qed.

(** The query sent to the index carries the escaped destination and the
    date. *)
Lemma cdxQuery_example :
  cdxQuery "http://example.com/" "20020401"
  = "http://web.archive.org/cdx/search/cdx?url=http%3A%2F%2Fexample.com%2F&from=20020401&filter=statuscode:200&filter=mimetype:text/html&limit=1&output=json".
Proof. reflexivity. Qed.

End ResolverFacts.

(** ** The redirect-parameter extractor *)

Module RedirectFacts.
Section WithURL.

Context {net : NetURL}.

Import Redirect GoStringsFacts.

(** A value that qualifies is not empty. *)
Lemma qualifies_nonempty (u : URL) (param : string) :
  qualifies u param = true -> String.eqb (QueryGet u param) "" = false.
Proof.
  unfold qualifies, isAbsoluteURL, isAbsolutePath, HasPrefix.
  destruct (QueryGet u param); [discriminate | reflexivity].
Qed.

(** The loop of the source returns at the first candidate that
    qualifies. *)
Lemma scanParams_find (u : URL) (params : list string) :
  scanParams u params
  = option_map (destinationOf u) (List.find (qualifies u) params).
Proof.
  induction params as [|param rest IH]; [reflexivity|].
  cbn [scanParams List.find].
  destruct (qualifies u param) eqn:Hq.
  - rewrite (qualifies_nonempty _ _ Hq). cbn [negb option_map].
    unfold destinationOf. unfold qualifies in Hq.
    destruct (isAbsoluteURL (QueryGet u param)); [reflexivity|].
    simpl in Hq. now rewrite Hq.
  - unfold qualifies in Hq. apply orb_false_iff in Hq as [-> ->].
    destruct (negb _); exact IH.
Qed.

(** The loop is the first-match rule [extract_spec]. *)
Lemma extractRedirectURL_extract_spec (url : string) :
  extractRedirectURL url = extract_spec url.
Proof.
  unfold extractRedirectURL, extract_spec.
  destruct (Parse url) as [u|]; [|reflexivity].
  rewrite scanParams_find.
  now destruct (List.find (qualifies u) redirectParams).
Qed.


(** A parse failure degrades to the identity. *)
Lemma extractRedirectURL_unparsed (url : string) :
  Parse url = None -> extractRedirectURL url = url.
Proof. unfold extractRedirectURL. now intros ->. Qed.

(** The first candidate of the list wins over the later ones. *)
Lemma extractRedirectURL_redirect (url : string) (u : URL) :
  Parse url = Some u ->
  isAbsoluteURL (QueryGet u "redirect") = true ->
  extractRedirectURL url = QueryGet u "redirect".
Proof.
  intros Hparse Habs. unfold extractRedirectURL. rewrite Hparse.
  unfold redirectParams. cbn [scanParams].
  assert (Hne : String.eqb (QueryGet u "redirect") "" = false).
  { apply qualifies_nonempty. unfold qualifies. now rewrite Habs. }
  now rewrite Hne, Habs.
Qed.

(** What the extractor returns is the input or a query value of the
    input, possibly behind the input's scheme and host. *)
Lemma extract_spec_cases (url : string) :
  extract_spec url = url
  \/ exists u param,
       Parse url = Some u /\ In param redirectParams
       /\ qualifies u param = true
       /\ extract_spec url = destinationOf u param.
Proof.
  unfold extract_spec.
  destruct (Parse url) as [u|]; [|now left].
  destruct (List.find (qualifies u) redirectParams) as [param|] eqn:Hfind;
    [right|now left].
  apply find_some in Hfind as [Hin Hq].
  now exists u, param.
Qed.

End WithURL.
End RedirectFacts.

(** ** The retrying forwarder *)

Module ForwarderFacts.

Import Forwarder.

(** *** 64-bit durations *)

Lemma int64_small (z : Z) : - 2 ^ 63 <= z < 2 ^ 63 -> int64 z = z.
Proof. intros H. unfold int64. rewrite Z.mod_small; lia. Qed.

Lemma int64_range (z : Z) : - 2 ^ 63 <= int64 z < 2 ^ 63.
Proof.
  unfold int64.
  pose proof (Z.mod_pos_bound (z + 2 ^ 63) (2 ^ 64) ltac:(lia)). lia.
Qed.

(** Wrapping commutes with multiplication. *)
Lemma int64_mul (x y : Z) : int64 (int64 x * y) = int64 (x * y).
Proof.
  unfold int64. f_equal.
  rewrite (Z.mod_eq (x + 2 ^ 63) (2 ^ 64)) by lia.
  replace ((x + 2 ^ 63 - 2 ^ 64 * ((x + 2 ^ 63) / 2 ^ 64) - 2 ^ 63) * y + 2 ^ 63)
    with (x * y + 2 ^ 63 + (- ((x + 2 ^ 63) / 2 ^ 64) * y) * 2 ^ 64) by ring.
  apply Z_mod_plus_full.
Qed.

(** The delays the loop sleeps for, as it computes them: each one is
    the double of the one before, in 64 bits. *)
Fixpoint doublings (delay : Z) (n : nat) : list Z :=
  match n with
  | O => []
  | S k => delay :: doublings (int64 (delay * 2)) k
  end.

Lemma doublings_backoff (n : nat) (delay : Z) :
  - 2 ^ 63 <= delay < 2 ^ 63 -> doublings delay n = backoff delay n.
Proof.
  revert delay.
  induction n as [|n IH]; intros delay Hrange; [reflexivity|].
  cbn [doublings]. rewrite IH by apply int64_range.
  unfold backoff. cbn [seq map].
  rewrite Z.mul_1_r, (int64_small _ Hrange). f_equal.
  rewrite <- seq_shift, map_map.
  apply map_ext. intros k.
  rewrite int64_mul. f_equal.
  rewrite Nat2Z.inj_succ, Z.pow_succ_r by lia. ring.
Qed.

(** Where nothing overflows the delays are the exact powers. *)
Lemma backoff_exact (delay : Z) (n : nat) :
  0 <= delay -> delay * 2 ^ (Z.of_nat n - 1) < 2 ^ 63 ->
  backoff delay n = map (fun k => delay * 2 ^ Z.of_nat k) (seq 0 n).
Proof.
  intros Hpos Hmax. unfold backoff.
  apply map_ext_in. intros k Hk. apply in_seq in Hk.
  apply int64_small. split; [nia|].
  apply Z.le_lt_trans with (delay * 2 ^ (Z.of_nat n - 1)); [|exact Hmax].
  apply Z.mul_le_mono_nonneg_l; [exact Hpos|].
  apply Z.pow_le_mono_r; lia.
Qed.

(** *** One iteration, by class *)

Definition retry (attempt : nat) (a : Attempt) (st : Loop) : Loop :=
  markRetry (failed a (call a (pause attempt st))).

Definition stop (attempt : nat) (a : Attempt) (st : Loop) : Loop :=
  failed a (call a (pause attempt st)).

Lemma iteration_success (attempt : nat) (a : Attempt) (st : Loop) :
  classify a = SUCCESS ->
  iteration attempt a st = Return (copyOf (rec a)) (call a (pause attempt st)).
Proof.
  unfold classify, iteration.
  destruct (success (rec a)); [reflexivity|].
  destruct (retryable (rec a)); discriminate.
Qed.

Lemma iteration_retryable (attempt : nat) (a : Attempt) (st : Loop) :
  classify a = RETRYABLE_FAILURE ->
  iteration attempt a st = Continue (retry attempt a st).
Proof.
  unfold classify, iteration.
  destruct (success (rec a)); [discriminate|].
  destruct (retryable (rec a)); [reflexivity | discriminate].
Qed.

Lemma iteration_terminal (attempt : nat) (a : Attempt) (st : Loop) :
  classify a = TERMINAL_FAILURE ->
  iteration attempt a st = Break (stop attempt a st).
Proof.
  unfold classify, iteration.
  destruct (success (rec a)); [discriminate|].
  destruct (retryable (rec a)); [discriminate | reflexivity].
Qed.

Lemma shouldRetry_stop (attempt : nat) (a : Attempt) (st : Loop) :
  shouldRetry (stop attempt a st) = shouldRetry st.
Proof. now destruct attempt. Qed.

Lemma calls_stop (attempt : nat) (a : Attempt) (st : Loop) :
  calls (stop attempt a st) = S (calls st).
Proof. now destruct attempt. Qed.

Lemma lastErr_stop (attempt : nat) (a : Attempt) (st : Loop) :
  lastErr (stop attempt a st)
  = Some ("proxy returned status " ++ Itoa (ResultStatusCode (rec a))).
Proof. reflexivity. Qed.

(** The classification reads the recorder only: whether the call
    panicked does not enter it. *)
Lemma classify_ignores_panic (r : Recorder) (v : option string) :
  classify {| rec := r; panicked := v |}
  = classify {| rec := r; panicked := None |}.
Proof. reflexivity. Qed.

Lemma status_502_retryable (a : Attempt) :
  Code (rec a) = 502 -> classify a = RETRYABLE_FAILURE.
Proof.
  intros H. unfold classify, success, retryable, ResultStatusCode.
  rewrite H. reflexivity.
Qed.

(** *** Runs of retryable attempts *)

Section Runs.

Variable serve : nat -> Attempt.

(** The state after [n] retryable iterations from index [attempt]. *)
Fixpoint retries (attempt n : nat) (st : Loop) : Loop :=
  match n with
  | O => st
  | S n' => retries (S attempt) n' (retry attempt (serve attempt) st)
  end.

Lemma loop_retries (n m attempt : nat) (st : Loop) :
  (forall k, (attempt <= k < attempt + n)%nat ->
             classify (serve k) = RETRYABLE_FAILURE) ->
  loop serve (n + m) attempt st
  = loop serve m (attempt + n) (retries attempt n st).
Proof.
  revert attempt st.
  induction n as [|n IH]; intros attempt st Hall.
  - now rewrite Nat.add_0_r.
  - cbn [Nat.add loop retries].
    rewrite iteration_retryable by (apply Hall; lia).
    rewrite IH by (intros k Hk; apply Hall; lia).
    f_equal. lia.
Qed.

Lemma calls_retries (n attempt : nat) (st : Loop) :
  calls (retries attempt n st) = (calls st + n)%nat.
Proof.
  revert attempt st.
  induction n as [|n IH]; intros attempt st; cbn [retries]; [lia|].
  rewrite IH. destruct attempt; simpl; lia.
Qed.

Lemma flags_retries (n attempt : nat) (st : Loop) :
  shouldRetry (retries attempt (S n) st) = true
  /\ lastErr (retries attempt (S n) st)
     = Some ("proxy returned status "
               ++ Itoa (ResultStatusCode (rec (serve (attempt + n)))))
  /\ recorder (retries attempt (S n) st) = Some (rec (serve (attempt + n))).
Proof.
  revert attempt st.
  induction n as [|n IH]; intros attempt st.
  - cbn [retries]. rewrite Nat.add_0_r. repeat split.
  - change (retries attempt (S (S n)) st)
      with (retries (S attempt) (S n) (retry attempt (serve attempt) st)).
    replace (attempt + S n)%nat with (S attempt + n)%nat by lia.
    apply IH.
Qed.

Lemma backoff_retries (n attempt : nat) (st : Loop) :
  slept (retries (S attempt) n st)
  = (slept st ++ doublings (retryDelay st) n)%list.
Proof.
  revert attempt st.
  induction n as [|n IH]; intros attempt st; cbn [retries doublings].
  - now rewrite app_nil_r.
  - rewrite IH. simpl. now rewrite <- app_assoc.
Qed.

(** From a fresh start the first attempt does not sleep: [n]
    retryable attempts sleep [n - 1] times. *)
Lemma backoff_from_start (n : nat) (delay : Z) :
  slept (retries 0 n (start delay)) = doublings delay (n - 1).
Proof.
  destruct n as [|n]; [reflexivity|].
  cbn [retries]. rewrite backoff_retries. simpl.
  now rewrite Nat.sub_0_r.
Qed.

(** *** What a run can end with *)

Lemma loop_ends (n attempt : nat) (st : Loop) :
  match loop serve n attempt st with
  | (Some w, _) =>
      exists k, (attempt <= k < attempt + n)%nat /\ w = copyOf (rec (serve k))
  | (None, st') =>
      (n = O /\ st' = st)
      \/ exists k, (attempt <= k < attempt + n)%nat
                   /\ recorder st' = Some (rec (serve k))
  end.
Proof.
  revert attempt st.
  induction n as [|n IH]; intros attempt st; cbn [loop]; [now left|].
  unfold iteration.
  destruct (success (rec (serve attempt))).
  - exists attempt. split; [lia | reflexivity].
  - destruct (retryable (rec (serve attempt))).
    + specialize (IH (S attempt)
                     (markRetry (failed (serve attempt)
                        (call (serve attempt) (pause attempt st))))).
      destruct (loop serve n (S attempt) _) as [[w|] st'].
      * destruct IH as [k [Hk ->]]. exists k. split; [lia | reflexivity].
      * right. destruct IH as [[-> ->]|[k [Hk Hrec]]].
        -- exists attempt. split; [lia | reflexivity].
        -- exists k. split; [lia | exact Hrec].
    + right. exists attempt. split; [lia | reflexivity].
Qed.

End Runs.

(** Every run ends in one of three ways: the handler dereferences the
    nil [lastErr] (only when the loop body never ran), it answers the
    synthetic 502, or it copies the recorder of one of the attempts.  In
    particular the synthetic 500 is never sent. *)
Lemma forward_ends (mode : Mode) (N delay : Z) (serve : nat -> Attempt) :
  (N <= 0 /\ outcome (forward mode N delay serve) = Fault nilDereference)
  \/ (1 <= N
      /\ (outcome (forward mode N delay serve)
            = Responded (Error (exhaustedMsg mode N) 502)
          \/ exists k, (k < Z.to_nat N)%nat
                       /\ outcome (forward mode N delay serve)
                          = Responded (copyOf (rec (serve k))))).
Proof.
  unfold forward.
  pose proof (loop_ends serve (Z.to_nat N) 0 (start delay)) as H.
  destruct (loop serve (Z.to_nat N) 0 (start delay)) as [[w|] st];
    cbn [outcome].
  - destruct H as [k [Hk ->]]. right. split; [lia|].
    right. exists k. split; [lia | reflexivity].
  - destruct H as [[HN ->]|[k [Hk Hrec]]].
    + left. split; [lia | reflexivity].
    + right. split; [lia|]. unfold finish. rewrite Hrec.
      destruct (shouldRetry st && isSome (lastErr st)); [now left|].
      right. exists k. split; [lia | reflexivity].
Qed.

(** With at least one attempt configured the handler answers. *)
Lemma forward_responds (mode : Mode) (N delay : Z) (serve : nat -> Attempt) :
  1 <= N -> exists w, outcome (forward mode N delay serve) = Responded w.
Proof.
  intros HN.
  destruct (forward_ends mode N delay serve)
    as [[H _]|[_ [H|[k [_ H]]]]]; [lia| |]; rewrite H; eauto.
Qed.

(** With no attempt configured the handler panics on the nil
    [lastErr], whatever the upstream would have done. *)
Lemma forward_no_attempt (mode : Mode) (N delay : Z) (serve : nat -> Attempt) :
  N <= 0 ->
  outcome (forward mode N delay serve) = Fault nilDereference
  /\ calls (final (forward mode N delay serve)) = O.
Proof.
  intros HN. unfold forward.
  replace (Z.to_nat N) with O by lia. split; reflexivity.
Qed.

(** The synthetic 500 of the last branch is dead code. *)
Lemma forward_never_500 (mode : Mode) (N delay : Z) (serve : nat -> Attempt)
    (msg : string) :
  outcome (forward mode N delay serve) <> Responded (Error msg 500).
Proof.
  destruct (forward_ends mode N delay serve)
    as [[_ H]|[_ [H|[k [_ H]]]]]; rewrite H; discriminate.
Qed.

(** The state in which the loop is left after [n] retryable attempts
    followed by a terminal one. *)
Lemma forward_retries_then_terminal
    (mode : Mode) (N delay : Z) (serve : nat -> Attempt) (n : nat) :
  (n < Z.to_nat N)%nat ->
  (forall k, (k < n)%nat -> classify (serve k) = RETRYABLE_FAILURE) ->
  classify (serve n) = TERMINAL_FAILURE ->
  forward mode N delay serve
  = let st := stop n (serve n) (retries serve 0 n (start delay)) in
    {| outcome := finish mode N st; final := st |}.
Proof.
  intros Hn Hretry Hterm. unfold forward.
  replace (Z.to_nat N) with (n + S (Z.to_nat N - S n))%nat by lia.
  rewrite loop_retries by (intros k Hk; apply Hretry; lia).
  cbn [loop Nat.add]. now rewrite iteration_terminal.
Qed.

(** A terminal failure on the first attempt is forwarded as it is, after
    one call and no sleep. *)
Lemma forward_terminal_first
    (mode : Mode) (N delay : Z) (serve : nat -> Attempt) :
  1 <= N -> classify (serve O) = TERMINAL_FAILURE ->
  outcome (forward mode N delay serve) = Responded (copyOf (rec (serve O)))
  /\ calls (final (forward mode N delay serve)) = 1%nat
  /\ slept (final (forward mode N delay serve)) = [].
Proof.
  intros HN Hterm.
  rewrite (forward_retries_then_terminal mode N delay serve 0);
    [| lia | intros k Hk; lia | exact Hterm].
  repeat split.
Qed.

(** A terminal failure after a retryable one is not forwarded: the flag
    [shouldRetry] is still set and the handler answers the synthetic
    502. *)
Lemma forward_terminal_after_retry
    (mode : Mode) (N delay : Z) (serve : nat -> Attempt) (n : nat) :
  (S n < Z.to_nat N)%nat ->
  (forall k, (k <= n)%nat -> classify (serve k) = RETRYABLE_FAILURE) ->
  classify (serve (S n)) = TERMINAL_FAILURE ->
  outcome (forward mode N delay serve)
  = Responded (Error (exhaustedMsg mode N) 502)
  /\ calls (final (forward mode N delay serve)) = S (S n).
Proof.
  intros Hn Hretry Hterm.
  rewrite (forward_retries_then_terminal mode N delay serve (S n));
    [| exact Hn | intros k Hk; apply Hretry; lia | exact Hterm].
  cbv zeta. cbn [outcome final].
  destruct (flags_retries serve n 0 (start delay)) as [Hflag _].
  split.
  - unfold finish. rewrite lastErr_stop, shouldRetry_stop, Hflag.
    reflexivity.
  - now rewrite calls_stop, calls_retries.
Qed.

(** *** The claims *)

Definition answers (code : Z) (body : string) : Attempt :=
  {| rec := {| Code := code; HeaderMap := [("Content-Type", ["text/html"])];
               Body := body |};
     panicked := None |}.

(** C1.  With three attempts configured, a 502 and then a 404: the
    first attempt is retryable, the second and last one is terminal, and
    the client does not get the 404 of the upstream but the synthetic
    502. *)
Theorem terminal_after_retry_is_swallowed :
  let serve k := match k with
                 | O => answers 502 "bad gateway"
                 | _ => answers 404 "<h1>not found</h1>"
                 end in
  let run := forward ArchiveMode 3 1000000000 serve in
  classify (serve 0%nat) = RETRYABLE_FAILURE
  /\ classify (serve 1%nat) = TERMINAL_FAILURE
  /\ calls (final run) = 2%nat
  /\ recorder (final run) = Some (rec (serve 1%nat))
  /\ outcome run
     = Responded
         (Error "Failed to connect to archived content after 3 attempts" 502).
Proof. repeat split; reflexivity. Qed.

(** C2.  A proxy call that panics before it writes anything: the panic
    is recovered, but the fresh recorder reads 200, the attempt is
    classified a success and the empty 200 is sent to the client, with
    no retry. *)
Theorem panic_is_returned_as_success :
  let serve (k : nat) := {| rec := NewRecorder; panicked := Some "boom" |} in
  let run := forward ArchiveMode 3 1000000000 serve in
  classify (serve 0%nat) = SUCCESS
  /\ lastErr (final run) = Some "proxy panic: boom"
  /\ calls (final run) = 1%nat
  /\ outcome run = Responded (Copy 200 [] "").
Proof. repeat split; reflexivity. Qed.

(** The [k]-th element of the backoff delays. *)
Lemma nth_backoff (delay : Z) (n k : nat) :
  (k < n)%nat ->
  nth k (backoff delay n) 0 = int64 (delay * 2 ^ Z.of_nat k).
Proof.
  intros Hk. unfold backoff.
  rewrite (nth_indep _ 0 (int64 (delay * 2 ^ Z.of_nat 0)))
    by (now rewrite length_map, length_seq).
  rewrite (map_nth (fun k => int64 (delay * 2 ^ Z.of_nat k))).
  now rewrite seq_nth.
Qed.

(** C4, as the code has it.  With [N >= 1] attempts configured, a delay
    held in a [time.Duration] and an upstream that answers 502 every time,
    the proxy is called exactly [N] times, the loop sleeps [N - 1] times,
    before the [k]-th retry for [delay * 2^(k-1)] reduced to a signed
    64-bit value (so exactly for [delay], [2 * delay], [4 * delay], ... as
    long as the product fits in 64 bits), and the client gets the
    synthetic 502 whose message holds the decimal numeral of [N] between
    "after" and "attempts". *)
Theorem always_502_exhausts
    (mode : Mode) (N delay : Z) (serve : nat -> Attempt) :
  1 <= N ->
  - 2 ^ 63 <= delay < 2 ^ 63 ->
  (forall k, Code (rec (serve k)) = 502) ->
  let run := forward mode N delay serve in
  calls (final run) = Z.to_nat N
  /\ slept (final run)
     = map (fun k => (delay * 2 ^ Z.of_nat k + 2 ^ 63) mod 2 ^ 64 - 2 ^ 63)
         (seq 0 (Z.to_nat N - 1))
  /\ (forall k, (k < Z.to_nat N - 1)%nat ->
                - 2 ^ 63 <= delay * 2 ^ Z.of_nat k < 2 ^ 63 ->
                nth k (slept (final run)) 0 = delay * 2 ^ Z.of_nat k)
  /\ outcome run
     = Responded
         (Error
            (match mode with
             | FixedOrigin =>
                 "Failed to connect to geocities.restorativland.org after "
             | ArchiveMode => "Failed to connect to archived content after "
             end ++ NilZero.string_of_int (Z.to_int N) ++ " attempts")
            502).
Proof.
  intros HN Hrange H502 run.
  assert (Hrun : run
                 = let st := retries serve 0 (Z.to_nat N) (start delay) in
                   {| outcome := finish mode N st; final := st |}).
  { unfold run, forward.
    replace (Z.to_nat N) with (Z.to_nat N + 0)%nat at 1 by lia.
    rewrite loop_retries
      by (intros k _; apply status_502_retryable, H502).
    reflexivity. }
  rewrite Hrun. cbv zeta. cbn [outcome final].
  assert (Hslept : slept (retries serve 0 (Z.to_nat N) (start delay))
                   = backoff delay (Z.to_nat N - 1)).
  { rewrite backoff_from_start. now apply doublings_backoff. }
  split; [rewrite calls_retries; reflexivity|].
  split; [exact Hslept|].
  split.
  - intros k Hk Hfits. rewrite Hslept, (nth_backoff _ _ _ Hk).
    now apply int64_small.
  - destruct (Z.to_nat N) as [|n] eqn:E; [lia|].
    destruct (flags_retries serve n 0 (start delay)) as [Hflag [Herr _]].
    unfold finish. rewrite Hflag, Herr. now destruct mode.
Qed.

Lemma always_502_exhausts_witness :
  let run := forward ArchiveMode 3 1000000000 (fun _ => answers 502 "") in
  calls (final run) = 3%nat
  /\ slept (final run) = [1000000000; 2000000000]
  /\ nth 1 (slept (final run)) 0 = 1000000000 * 2 ^ 1
  /\ outcome run
     = Responded
         (Error "Failed to connect to archived content after 3 attempts" 502).
Proof.
  pose proof (always_502_exhausts ArchiveMode 3 1000000000
                (fun _ => answers 502 "")
                ltac:(lia) ltac:(lia) (fun _ => eq_refl)) as H.
  cbv zeta in H. destruct H as [Hcalls [Hslept [Hexact Hout]]].
  cbv zeta. split; [exact Hcalls|]. split; [exact Hslept|].
  split; [|exact Hout].
  apply (Hexact 1%nat); [simpl; lia | simpl; lia].
Defined.

(** C4 as stated fails where the doubling overflows.  With the default
    delay of one second and 36 attempts, the sleep before the last retry
    is not [2^34] seconds: the product does not fit in a
    [time.Duration], and the loop sleeps for the wrapped, negative
    value. *)
Lemma backoff_overflows :
  let delay := 1000000000 in
  let run := forward ArchiveMode 36 delay (fun _ => answers 502 "") in
  calls (final run) = 36%nat
  /\ nth 33 (slept (final run)) 0 = delay * 2 ^ 33
  /\ nth 34 (slept (final run)) 0 = -1266874889709551616
  /\ nth 34 (slept (final run)) 0 <> delay * 2 ^ 34
  /\ slept (final run) <> map (fun k => delay * 2 ^ Z.of_nat k) (seq 0 35).
Proof.
  cbv zeta.
  assert (H34 : nth 34 (slept (final (forward ArchiveMode 36 1000000000
                                         (fun _ => answers 502 ""))) ) 0
                = -1266874889709551616) by (vm_compute; reflexivity).
  split; [vm_compute; reflexivity|].
  split; [vm_compute; reflexivity|].
  split; [exact H34|].
  split.
  - rewrite H34. apply Z.eqb_neq. vm_compute. reflexivity.
  - intros Heq. rewrite Heq in H34. clear Heq. apply Z.eqb_eq in H34.
    vm_compute in H34. discriminate H34.
Qed.

(** C5.  With the maximum configured to 0 the loop body never runs,
    the recorder and [lastErr] are both nil, and the last branch calls
    [lastErr.Error()]: the handler panics instead of sending the
    synthetic 500. *)
Theorem zero_attempts_faults :
  let run := forward ArchiveMode 0 1000000000 (fun _ => answers 200 "ok") in
  calls (final run) = 0%nat
  /\ recorder (final run) = None
  /\ lastErr (final run) = None
  /\ outcome run = Fault nilDereference.
Proof. repeat split; reflexivity. Qed.

End ForwarderFacts.

(** ** The screenshot strip *)

Module ScreenshotFacts.

Import Screenshot GoStringsFacts.

Definition noLineFeed (s : string) : bool :=
  forallb (fun c => negb (Ascii.eqb c lf)) (list_ascii_of_string s).

Definition allSpaces (s : string) : bool :=
  forallb isSpace (list_ascii_of_string s).

(** A [card-image] element written on one line: the opening tag with a
    run of spaces [ws] before the attribute, the content [inner] and the
    closing tag. *)
Definition block (ws inner : string) : string :=
  openTag ++ ws ++ classAttr ++ inner ++ closeTag.

(** Whether [p] starts [s ++ t] is decided inside [s] when [s] is long
    enough. *)
Lemma prefix_app_short (p s t : string) :
  (String.length p <= String.length s)%nat ->
  String.prefix p (s ++ t) = String.prefix p s.
Proof.
  revert s.
  induction p as [|c p IH]; intros s Hlen.
  - now destruct s, t.
  - destruct s as [|d s]; [simpl in Hlen; lia|].
    simpl. destruct (ascii_dec c d); [|reflexivity].
    apply IH. simpl in Hlen. lia.
Qed.

(** The lazy star stops at the first closing tag. *)
Lemma lazyToClose_first (inner post : string) :
  noLineFeed inner = true ->
  find closeTag (inner ++ closeTag) = Some (String.length inner) ->
  lazyToClose (inner ++ closeTag ++ post)
  = Some (String.length inner + String.length closeTag)%nat.
Proof.
  induction inner as [|c inner IH]; intros Hlf Hfirst.
  - now destruct post.
  - cbn [noLineFeed list_ascii_of_string forallb] in Hlf.
    apply andb_true_iff in Hlf as [Hc Hlf].
    change (String c inner ++ closeTag) with (String c (inner ++ closeTag))
      in Hfirst.
    cbn [find] in Hfirst.
    destruct (String.prefix closeTag (String c (inner ++ closeTag))) eqn:Hp;
      [discriminate|].
    destruct (find closeTag (inner ++ closeTag)) as [n|] eqn:Hn;
      [|discriminate].
    injection Hfirst as Hfirst. subst n.
    change (String c inner ++ closeTag ++ post)
      with (String c (inner ++ closeTag ++ post)).
    cbn [lazyToClose].
    replace (String.prefix closeTag (String c (inner ++ closeTag ++ post)))
      with false.
    + apply negb_true_iff in Hc. rewrite Hc, (IH Hlf eq_refl). reflexivity.
    + rewrite <- Hp.
      change (String c (inner ++ closeTag ++ post))
        with (String c inner ++ closeTag ++ post).
      change (String c (inner ++ closeTag)) with (String c inner ++ closeTag).
      rewrite <- (append_assoc (String c inner) closeTag post).
      symmetry. apply prefix_app_short.
      rewrite length_app. simpl. lia.
Qed.

Lemma spacesThenClass_block (ws rest : string) :
  allSpaces ws = true ->
  spacesThenClass (ws ++ classAttr ++ rest)
  = option_map (Nat.add (String.length ws + String.length classAttr))
      (lazyToClose rest).
Proof.
  induction ws as [|c ws IH]; intros Hws.
  - change ("" ++ classAttr ++ rest) with (classAttr ++ rest).
    assert (E : spacesThenClass (classAttr ++ rest)
                = if String.prefix classAttr (classAttr ++ rest)
                  then option_map (Nat.add (String.length classAttr))
                         (lazyToClose (drop (String.length classAttr)
                                         (classAttr ++ rest)))
                  else None).
    { reflexivity. }
    rewrite E, prefix_app, drop_app. reflexivity.
  - cbn [allSpaces list_ascii_of_string forallb] in Hws.
    apply andb_true_iff in Hws as [Hc Hws].
    change (String c ws ++ classAttr ++ rest)
      with (String c (ws ++ classAttr ++ rest)).
    cbn [spacesThenClass]. rewrite Hc, (IH Hws).
    destruct (lazyToClose rest); reflexivity.
Qed.

Lemma block_length (ws inner : string) :
  String.length (block ws inner)
  = (String.length openTag + String.length ws + String.length classAttr
     + String.length inner + String.length closeTag)%nat.
Proof. unfold block. rewrite !length_app. lia. Qed.

(** The pattern matches a one-line block at its head, whole. *)
Lemma matchAt_block (c : ascii) (ws inner post : string) :
  isSpace c = true -> allSpaces ws = true ->
  noLineFeed inner = true ->
  find closeTag (inner ++ closeTag) = Some (String.length inner) ->
  matchAt (block (String c ws) inner ++ post)
  = Some (String.length (block (String c ws) inner)).
Proof.
  intros Hc Hws Hlf Hfirst.
  rewrite block_length.
  unfold block. rewrite !append_assoc.
  unfold matchAt. rewrite prefix_app, drop_app.
  change (String c ws ++ ?x) with (String c (ws ++ x)).
  cbn iota. rewrite Hc.
  change (String c (ws ++ classAttr ++ inner ++ closeTag ++ post))
    with (String c (ws ++ classAttr ++ inner ++ closeTag ++ post)).
  rewrite (spacesThenClass_block ws _ Hws).
  rewrite (lazyToClose_first inner post Hlf Hfirst).
  cbn [option_map]. f_equal.
  change (String.length (String c ws)) with (S (String.length ws)). lia.
Qed.

Lemma replaceFrom_skip (a b : string) :
  replaceFrom (String.length a) (a ++ b) = replaceFrom 0 b.
Proof. induction a as [|c a IH]; [reflexivity | exact IH]. Qed.

(** A one-line block at the head of the body is replaced by the
    placeholder, and the rewriting goes on after it. *)
Lemma stripScreenshots_block (c : ascii) (ws inner post : string) :
  isSpace c = true -> allSpaces ws = true ->
  noLineFeed inner = true ->
  find closeTag (inner ++ closeTag) = Some (String.length inner) ->
  stripScreenshots (block (String c ws) inner ++ post)
  = placeholder ++ stripScreenshots post.
Proof.
  intros Hc Hws Hlf Hfirst.
  pose proof (matchAt_block c ws inner post Hc Hws Hlf Hfirst) as Hm.
  unfold stripScreenshots.
  remember (block (String c ws) inner) as b eqn:Hb.
  destruct b as [|d b]; [discriminate|].
  change (String d b ++ post) with (String d (b ++ post)) in *.
  cbn [replaceFrom]. rewrite Hm.
  replace (String.length (String d b) - 1)%nat with (String.length b)
    by (simpl; lia).
  now rewrite replaceFrom_skip.
Qed.

(** Text without [<] is copied. *)
Lemma stripScreenshots_text (pre s : string) :
  forallb (fun c => negb (Ascii.eqb c "<")) (list_ascii_of_string pre) = true ->
  stripScreenshots (pre ++ s) = pre ++ stripScreenshots s.
Proof.
  induction pre as [|c pre IH]; intros Hpre; [reflexivity|].
  cbn [list_ascii_of_string forallb] in Hpre.
  apply andb_true_iff in Hpre as [Hc Hpre].
  change (String c pre ++ s) with (String c (pre ++ s)).
  unfold stripScreenshots in *. cbn [replaceFrom].
  assert (Hm : matchAt (String c (pre ++ s)) = None).
  { unfold matchAt, openTag. cbn [String.prefix].
    destruct (ascii_dec "<" c) as [<-|]; [discriminate | reflexivity]. }
  rewrite Hm, (IH Hpre). reflexivity.
Qed.

End ScreenshotFacts.

(** ** The router *)

Module RouterFacts.

Import Router Forwarder Resolver Redirect.
Import GoStringsFacts RedirectFacts ScreenshotFacts.

Section WithURL.

Context {net : NetURL}.

(** *** Fixed-origin mode *)

(** The outbound URL has the scheme and host of the parsed origin and
    the path and query of the inbound request, an empty path being
    [/]. *)
Lemma geocitiesDirector_target (targetURL : URL) (r : Request) :
  let out := geocitiesDirector targetURL r in
  Scheme out = Scheme targetURL /\ Host out = Host targetURL
  /\ RawQuery out = URLRawQuery r
  /\ (URLPath r = "" -> Path out = "/")
  /\ (URLPath r <> "" -> Path out = URLPath r).
Proof.
  cbv zeta. unfold geocitiesDirector. cbn [Scheme Host RawQuery Path].
  repeat split.
  - now intros ->.
  - intros Hne. apply String.eqb_neq in Hne. now rewrite Hne.
Qed.

Lemma Get_Set (h : Header) (key value : string) :
  Get (Set_ h key value) key = value.
Proof.
  induction h as [|[k vs] h IH]; simpl.
  - now rewrite String.eqb_refl.
  - destruct (String.eqb k key) eqn:E; simpl; rewrite E; [reflexivity|exact IH].
Qed.

(** A rewritten response declares the byte length of its new body. *)
Lemma withBody_length (resp : Response) (html : string) :
  Get (RespHeader (withBody resp html)) "Content-Length" = Itoa (len html)
  /\ ContentLength (withBody resp html) = len html
  /\ RespBody (withBody resp html) = html
  /\ StatusCode (withBody resp html) = StatusCode resp.
Proof. unfold withBody; cbn. now rewrite Get_Set. Qed.

(** An HTML response that is not a redirect gets the pattern replaced
    and its length recomputed. *)
Lemma geocitiesModifyResponse_html (resp : Response) :
  isHTML resp = true ->
  (StatusCode resp < 300 \/ 400 <= StatusCode resp) ->
  geocitiesModifyResponse resp
  = withBody resp (Screenshot.stripScreenshots (RespBody resp)).
Proof.
  intros Hhtml Hcode. unfold geocitiesModifyResponse.
  replace ((300 <=? StatusCode resp) && (StatusCode resp <? 400)) with false
    by (symmetry; apply andb_false_iff; rewrite Z.leb_gt, Z.ltb_ge; lia).
  cbn [andb]. now rewrite Hhtml.
Qed.

(** *** Archive mode *)

(** The destination as the router recovers it from a URL that
    already is an archive URL: [http://] and the [/]-separated segments
    of the URL from the seventh on. *)
Definition reconstructed (r : Request) : string :=
  "http://" ++ Join (skipn 6 (Split (URLString r) "/")) "/".

Lemma absolute_archive (r : Request) :
  HasPrefix (URLString r) archivePrefix = true -> absolute r = URLString r.
Proof.
  intros H. unfold absolute.
  assert (Hhttp : HasPrefix (URLString r) "http" = true).
  { unfold HasPrefix. now apply prefix_trans with archivePrefix. }
  now rewrite Hhttp.
Qed.

Lemma isAbsoluteURL_length (v : string) :
  isAbsoluteURL v = true -> (7 <= String.length v)%nat.
Proof.
  unfold isAbsoluteURL, HasPrefix. intros H.
  apply orb_true_iff in H as [H|H]; apply prefix_length in H;
    simpl in H; lia.
Qed.

(** A redirect value is never the URL it was read from. *)
Lemma redirect_differs (raw : string) (u : URL) (key : string) :
  Parse raw = Some u -> isAbsoluteURL (QueryGet u key) = true ->
  (String.length (QueryGet u key) < String.length raw)%nat.
Proof.
  intros Hparse Habs. apply isAbsoluteURL_length in Habs.
  destruct (QueryGet_shorter raw u key Hparse) as [E|Hlt]; [|exact Hlt].
  rewrite E in Habs. simpl in Habs. lia.
Qed.

(** Where the parameter survives the split: for an inbound URL with the
    archive prefix, when the destination as the router reconstructs it
    parses with a [redirect] parameter whose value is an absolute
    http/https URL, the router calls the snapshot resolver for that
    value. *)
Theorem archive_reentry_resolves_redirect (r : Request) (u : URL) :
  HasPrefix (URLString r) archivePrefix = true ->
  Parse (reconstructed r) = Some u ->
  isAbsoluteURL (QueryGet u "redirect") = true ->
  archiveRoute r = Resolve (QueryGet u "redirect").
Proof.
  intros Hprefix Hparse Habs.
  pose proof (redirect_differs _ _ _ Hparse Habs) as Hlt.
  pose proof (isAbsoluteURL_length _ Habs) as Hlen.
  unfold archiveRoute. rewrite Hprefix, (absolute_archive r Hprefix).
  fold (reconstructed r).
  assert (Hparts : (7 <=? List.length (Split (URLString r) "/"))%nat = true).
  { apply Nat.leb_le.
    destruct (Nat.le_gt_cases 7 (List.length (Split (URLString r) "/")))
      as [H|H]; [exact H|exfalso].
    unfold reconstructed in Hlt.
    rewrite skipn_all2 in Hlt by lia. simpl in Hlt. lia. }
  rewrite Hparts.
  rewrite (extractRedirectURL_redirect _ u Hparse Habs).
  destruct (String.eqb (QueryGet u "redirect") (reconstructed r)) eqn:E;
    [|reflexivity].
  apply String.eqb_eq in E. rewrite E in Hlt. lia.
Qed.

(** The same for any candidate name: the first candidate of the
    reconstructed destination that qualifies, when its value is an
    absolute http/https URL, is what the resolver is called for. *)
Lemma archive_reentry_resolves_first_match
    (r : Request) (u : URL) (param : string) :
  HasPrefix (URLString r) archivePrefix = true ->
  Parse (reconstructed r) = Some u ->
  List.find (qualifies u) redirectParams = Some param ->
  isAbsoluteURL (QueryGet u param) = true ->
  archiveRoute r = Resolve (QueryGet u param).
Proof.
  intros Hprefix Hparse Hfind Habs.
  pose proof (redirect_differs _ _ _ Hparse Habs) as Hlt.
  unfold archiveRoute. rewrite Hprefix, (absolute_archive r Hprefix).
  fold (reconstructed r).
  assert (Hparts : (7 <=? List.length (Split (URLString r) "/"))%nat = true).
  { apply Nat.leb_le.
    destruct (Nat.le_gt_cases 7 (List.length (Split (URLString r) "/")))
      as [H|H]; [exact H|exfalso].
    pose proof (isAbsoluteURL_length _ Habs) as Hlen.
    unfold reconstructed in Hlt.
    rewrite skipn_all2 in Hlt by lia. simpl in Hlt. lia. }
  rewrite Hparts.
  assert (Hext : extractRedirectURL (reconstructed r) = QueryGet u param).
  { rewrite extractRedirectURL_extract_spec. unfold extract_spec.
    rewrite Hparse, Hfind. unfold destinationOf. now rewrite Habs. }
  rewrite Hext.
  destruct (String.eqb (QueryGet u param) (reconstructed r)) eqn:E;
    [|reflexivity].
  apply String.eqb_eq in E. rewrite E in Hlt. lia.
Qed.

(** X20.  Once the router has decided for the resolver, a failure of the
    resolver is answered with a 500 and nothing is forwarded. *)
Lemma handleRequest_resolution_error (env : Env) (r : Request)
    (destinationURL msg : string) :
  isGeocitiesRequest r = false ->
  archiveRoute r = Resolve destinationURL ->
  getWaybackURL (cdxGet env) destinationURL (date env) = Err msg ->
  outcome (handleRequest env r)
  = Responded (Error ("Error finding archived version: " ++ msg) 500)
  /\ calls (final (handleRequest env r)) = O.
Proof.
  intros Hgeo Hroute Herr. unfold handleRequest.
  rewrite Hgeo, Hroute, Herr. split; reflexivity.
Qed.

End WithURL.

End RouterFacts.

(** ** Runs of the handler with the model of [net/url] *)

Module Runs.

Import Router Forwarder Resolver Redirect.
Import RouterFacts ResolverFacts.

#[local] Existing Instance GoURL.goURL.

(** An inbound proxy request for an absolute URL, as [net/http] hands
    it to the handler. *)
Definition proxyRequest (host path query : string) : Request :=
  {| ReqHost := host; URLPath := path; URLRawQuery := query;
     URLString :=
       "http://" ++ host ++ path
         ++ (if String.eqb query "" then "" else "?" ++ query) |}.

Definition html (status : Z) (body : string) : Response :=
  {| StatusCode := status;
     RespHeader := [("Content-Type", ["text/html; charset=utf-8"])];
     RespBody := body;
     ContentLength := len body |}.

(** An upstream that serves [resp] at the URL [target] and refuses
    every other connection. *)
Definition serves (target : URL) (resp : Response) (u : URL) (k : nat)
    : RoundTrip :=
  if String.eqb (Scheme u) (Scheme target) && String.eqb (Host u) (Host target)
     && String.eqb (Path u) (Path target)
     && String.eqb (RawQuery u) (RawQuery target)
  then Upstream resp
  else TransportError "dial tcp: connection refused".

Definition env (index : string -> CdxReply)
    (upstream : URL -> nat -> RoundTrip) : Env :=
  {| date := "20020401"; maxRetries := 3; retryDelayFlag := 1000000000;
     cdxGet := index; roundTrip := upstream |}.

(** *** Archive mode *)

Definition reentry : Request :=
  proxyRequest "web.archive.org"
    "/web/20020405123000/http://example.com/go"
    "redirect=https://other.example/page".

Lemma archive_reentry_resolves_redirect_witness :
  HasPrefix (URLString reentry) archivePrefix = true
  /\ reconstructed reentry
     = "http:///example.com/go?redirect=https://other.example/page"
  /\ archiveRoute reentry = Resolve "https://other.example/page".
Proof.
  split; [reflexivity|]. split; [reflexivity|].
  exact (archive_reentry_resolves_redirect reentry
           {| Scheme := "http"; Host := ""; Path := "/example.com/go";
              RawQuery := "redirect=https://other.example/page" |}
           eq_refl eq_refl eq_refl).
Defined.

(** C7.  The archive URL wraps the destination
    [example.com?redirect=https://other.example/page], whose query has an
    absolute [redirect] value.  Asked for directly, that destination makes
    the router call the resolver for [https://other.example/page].
    Wrapped in the archive URL it does not: [parts[6:]] drops the sixth
    segment, which holds the host and the parameter name, nothing of the
    redirect is left in what the router takes for the destination, and
    the inbound URL is reused without a call to the resolver. *)
Theorem archive_reentry_misses_redirect :
  let wrapped := "example.com?redirect=https://other.example/page" in
  let r := proxyRequest "web.archive.org" "/web/20020405123000/example.com"
             "redirect=https://other.example/page" in
  let direct := proxyRequest "example.com" ""
                  "redirect=https://other.example/page" in
  URLString r = archivePrefix ++ "20020405123000/" ++ wrapped
  /\ HasPrefix (URLString r) archivePrefix = true
  /\ option_map (fun u => QueryGet u "redirect") (Parse wrapped)
     = Some "https://other.example/page"
  /\ URLString direct = "http://" ++ wrapped
  /\ archiveRoute direct = Resolve "https://other.example/page"
  /\ reconstructed r = "http:///other.example/page"
  /\ archiveRoute r = Existing (URLString r)
  /\ archiveRoute r <> Resolve "https://other.example/page".
Proof. repeat split; try reflexivity. discriminate. Qed.

(** The extractor on concrete URLs: the order of the candidates decides,
    not the order in the query; a value that does not qualify does not
    stop the search; a path is put behind the input's scheme and host; a
    name outside the list, a URL without query and a URL that does not
    parse give the input back. *)
Lemma extractRedirectURL_examples :
  extractRedirectURL "http://a.example/go?url=http://u.example/&redirect=https://r.example/x"
  = "https://r.example/x"
  /\ extractRedirectURL "http://a.example/go?redirect=home&next=/start"
     = "http://a.example/start"
  /\ extractRedirectURL "https://a.example:8443/login?target=%2Faccount"
     = "https://a.example:8443/account"
  /\ extractRedirectURL "http://a.example/go?to=http://u.example/"
     = "http://a.example/go?to=http://u.example/"
  /\ extractRedirectURL "http://a.example/plain" = "http://a.example/plain"
  /\ extractRedirectURL ":?redirect=http://u.example/"
     = ":?redirect=http://u.example/".
Proof. repeat split; reflexivity. Qed.

(** The end-to-end example of the specification: [http://example.com/]
    at date 20020401, the index answering 20020405123000, is fetched from
    the snapshot URL, and the toolbar is cut out of the page (with the
    byte that follows it). *)
Lemma archive_end_to_end :
  let target := {| Scheme := "http"; Host := "web.archive.org";
                   Path := "/web/20020405123000/http://example.com/";
                   RawQuery := "" |} in
  let page := "<html>" ++ Toolbar.beginMarker ++ "toolbar"
                ++ Toolbar.endMarker ++ String lf "<body>hello</body></html>" in
  let run := handleRequest
               (env (exampleIndex "20020405123000") (serves target (html 200 page)))
               (proxyRequest "example.com" "/" "") in
  outcome run
  = Responded
      (Copy 200
         [("Content-Type", ["text/html; charset=utf-8"]);
          ("Content-Length", ["31"])]
         "<html><body>hello</body></html>")
  /\ calls (final run) = 1%nat.
Proof. split; reflexivity. Qed.

(** The two toolbar defects meet: on a page that ends with the end
    marker the rewriting hook panics inside the proxy call, the panic is
    recovered, and the client is sent an empty 200. *)
Lemma archive_page_ending_in_marker :
  let target := {| Scheme := "http"; Host := "web.archive.org";
                   Path := "/web/20020405123000/http://example.com/";
                   RawQuery := "" |} in
  let page := "<html>" ++ Toolbar.beginMarker ++ "toolbar" ++ Toolbar.endMarker in
  let run := handleRequest
               (env (exampleIndex "20020405123000") (serves target (html 200 page)))
               (proxyRequest "example.com" "/" "") in
  outcome run = Responded (Copy 200 [] "")
  /\ lastErr (final run)
     = Some "proxy panic: runtime error: slice bounds out of range".
Proof. split; reflexivity. Qed.

(** *** Fixed-origin mode *)

Definition cardImage (inner : string) : string :=
  "<div class=" ++ dq ++ "card-image" ++ dq ++ ">" ++ inner ++ "</div>".

Definition geocitiesTarget (path query : string) : URL :=
  {| Scheme := "https"; Host := "geocities.restorativland.org";
     Path := path; RawQuery := query |}.

(** The origin parses to the https URL of the mirror, so the director
    sends every fixed-origin request there. *)
Lemma geocities_target (r : Request) :
  exists targetURL,
    Parse geocitiesOrigin = Some targetURL
    /\ geocitiesDirector targetURL r
       = geocitiesTarget
           (if String.eqb (URLPath r) "" then "/" else URLPath r)
           (URLRawQuery r).
Proof. eexists. split; reflexivity. Qed.

(** The end-to-end example of the specification: a block on one line is
    replaced and the length is recomputed. *)
Lemma geocities_end_to_end :
  let page := "<ul>" ++ cardImage "<img src=shot.png>" ++ "<a href=x>x</a></ul>" in
  let run := handleRequest
               (env (fun _ => GetError "unused")
                  (serves (geocitiesTarget "/neighborhood/page.html" "")
                     (html 200 page)))
               (proxyRequest "geocities.restorativland.org"
                  "/neighborhood/page.html" "") in
  outcome run
  = Responded
      (Copy 200
         [("Content-Type", ["text/html; charset=utf-8"]);
          ("Content-Length", ["67"])]
         ("<ul>" ++ Screenshot.placeholder ++ "<a href=x>x</a></ul>")).
Proof. reflexivity. Qed.

(** C9.  A [card-image] block written over several lines, in an HTML
    response of the mirror: the pattern's [.] does not cross a line
    feed, the block is left in the body, and the client gets the page
    with the screenshot in it. *)
Theorem multi_line_block_is_kept :
  let inner := String lf "  <img src=shot.png>" ++ String lf "" in
  let page := "<ul>" ++ cardImage inner ++ "</ul>" in
  let run := handleRequest
               (env (fun _ => GetError "unused")
                  (serves (geocitiesTarget "/neighborhood/page.html" "")
                     (html 200 page)))
               (proxyRequest "geocities.restorativland.org"
                  "/neighborhood/page.html" "") in
  isHTML (html 200 page) = true
  /\ Screenshot.stripScreenshots page = page
  /\ RespBody (geocitiesModifyResponse (html 200 page)) = page
  /\ outcome run
     = Responded
         (Copy 200
            [("Content-Type", ["text/html; charset=utf-8"]);
             ("Content-Length", [Itoa (len page)])]
            page).
Proof. repeat split; reflexivity. Qed.

(** A redirect whose [Location] does not parse leaves the hook before
    the rewriting: the block stays, on one line or not. *)
Lemma redirect_with_bad_location_is_kept :
  let page := cardImage "<img src=shot.png>" in
  let resp := {| StatusCode := 302;
                 RespHeader := [("Content-Type", ["text/html"]);
                                ("Location", [":bad"])];
                 RespBody := page; ContentLength := len page |} in
  isHTML resp = true
  /\ Screenshot.stripScreenshots page = Screenshot.placeholder
  /\ geocitiesModifyResponse resp = resp.
Proof. repeat split; reflexivity. Qed.

End Runs.

(** * Further properties of the code *)

(** ** The toolbar strip, continued *)

Module ToolbarLaws.

Import Toolbar GoStringsFacts ToolbarFacts.

Lemma Index_absent (s sep : string) : Index s sep = -1 -> find sep s = None.
Proof.
  unfold Index. destruct (find sep s) as [n|]; [lia | reflexivity].
Qed.

(** [strings.Replace] leaves a string without occurrence as it is. *)
Lemma replace_absent (old new s : string) :
  find old s = None -> replace_from old new 0 s = s.
Proof.
  induction s as [|c s IH]; [reflexivity|].
  cbn [find replace_from].
  destruct (String.prefix old (String c s)); [discriminate|].
  destruct (find old s); [discriminate|].
  intros _. now rewrite IH.
Qed.

(** [strings.Replace] with an empty replacement never lengthens. *)
Lemma delete_shorter (old : string) (skip : nat) (s : string) :
  (String.length (replace_from old "" skip s) <= String.length s)%nat.
Proof.
  revert skip.
  induction s as [|c s IH]; intros skip; [simpl; lia|].
  cbn [replace_from String.length].
  destruct skip as [|k].
  - destruct (String.prefix old (String c s)).
    + change ("" ++ ?x) with x. specialize (IH (String.length old - 1)%nat). lia.
    + cbn [String.length]. specialize (IH O). lia.
  - specialize (IH k). lia.
Qed.

(** X1.  A page that lacks one of the two toolbar markers and has no
    tracking script tag comes back from [removeWaybackToolbar] byte for
    byte. *)
Theorem undecorated_page_unchanged (html : string) :
  Index html beginMarker = -1 \/ Index html endMarker = -1 ->
  Index html scriptTag = -1 ->
  removeWaybackToolbar html = Some html.
Proof.
  intros Hmarker Hscript. unfold removeWaybackToolbar.
  assert (Hstrip : stripToolbar html = Some html).
  { destruct Hmarker as [H|H];
      [exact (stripToolbar_no_begin html H) | exact (stripToolbar_no_end html H)]. }
  rewrite Hstrip. cbn [option_map]. f_equal.
  unfold stripScript, ReplaceAll.
  apply replace_absent, Index_absent, Hscript.
Qed.

Lemma undecorated_page_unchanged_witness :
  removeWaybackToolbar ("<html>" ++ beginMarker ++ "<body>hello</body></html>")
  = Some ("<html>" ++ beginMarker ++ "<body>hello</body></html>").
Proof.
  apply undecorated_page_unchanged; [right|]; reflexivity.
Defined.

(** X2.  Whenever [removeWaybackToolbar] returns and both markers are
    there, the result is the script-free text of [html[:start]] followed by
    [html[end+36:]], whatever the order of the two markers: the code does
    not check that the begin marker comes first. *)
Theorem toolbar_cut_ignores_order (html out : string) :
  Index html beginMarker <> -1 -> Index html endMarker <> -1 ->
  removeWaybackToolbar html = Some out ->
  Index html endMarker + 36 <= len html
  /\ out = stripScript
             (take (Z.to_nat (Index html beginMarker)) html
                ++ drop (Z.to_nat (Index html endMarker + 36)) html).
Proof.
  intros Hb He. unfold removeWaybackToolbar.
  rewrite (stripToolbar_both html Hb He).
  destruct (Index html endMarker + 36 <=? len html) eqn:E; [|discriminate].
  cbn [option_map]. intros [= <-]. apply Z.leb_le in E. now split.
Qed.

(** With the end marker before the begin marker, the text between them
    is kept and then repeated. *)
Lemma toolbar_cut_ignores_order_witness :
  let html := "A" ++ endMarker ++ "-middle-" ++ beginMarker ++ "Z" in
  let out := "A" ++ endMarker ++ "-middle-" ++ "middle-" ++ beginMarker ++ "Z" in
  Index html endMarker < Index html beginMarker
  /\ removeWaybackToolbar html = Some out
  /\ Index html endMarker + 36 <= len html
  /\ out = stripScript
             (take (Z.to_nat (Index html beginMarker)) html
                ++ drop (Z.to_nat (Index html endMarker + 36)) html).
Proof.
  cbv zeta. split; [reflexivity|]. split; [reflexivity|].
  apply toolbar_cut_ignores_order; [discriminate | discriminate | reflexivity].
Defined.

(** Deleting the tracking script tag never lengthens the page. *)
Theorem stripScript_never_longer (html : string) :
  len (stripScript html) <= len html.
Proof.
  unfold len, stripScript, ReplaceAll.
  pose proof (delete_shorter scriptTag 0 html). lia.
Qed.

End ToolbarLaws.

(** ** The snapshot resolver, continued *)

Module ResolverLaws.

Import Resolver Escape ResolverFacts.

(** The characters [url.QueryEscape] can produce. *)
Definition escaped (c : ascii) : bool :=
  isAlnum c || Ascii.eqb c "-" || Ascii.eqb c "_" || Ascii.eqb c "."
  || Ascii.eqb c "~" || Ascii.eqb c "%" || Ascii.eqb c "+".

Definition allEscaped (s : string) : bool :=
  forallb escaped (list_ascii_of_string s).

Lemma hex_escaped (n : nat) : escaped (hex n) = true.
Proof.
  unfold hex, hexDigits.
  do 16 (destruct n as [|n]; [reflexivity|]).
  simpl. now destruct n.
Qed.

Lemma QueryEscape_escaped (s : string) : allEscaped (QueryEscape s) = true.
Proof.
  unfold allEscaped.
  induction s as [|c s IH]; [reflexivity|].
  cbn [QueryEscape].
  destruct (Ascii.eqb c " ").
  - cbn [list_ascii_of_string forallb]. now rewrite IH.
  - destruct (shouldEscape c) eqn:E.
    + cbn [list_ascii_of_string forallb].
      rewrite !hex_escaped, IH. reflexivity.
    + cbn [list_ascii_of_string forallb]. rewrite IH, andb_true_r.
      unfold shouldEscape in E. apply negb_false_iff in E.
      unfold escaped. rewrite E. reflexivity.
Qed.

Lemma unhex_hex (n : nat) : (n < 16)%nat -> GoURL.unhex (hex n) = Some n.
Proof.
  intros H.
  do 16 (destruct n as [|n]; [reflexivity|]). lia.
Qed.

Lemma unescaped_plain (c : ascii) :
  shouldEscape c = false -> Ascii.eqb c "%" = false /\ Ascii.eqb c "+" = false.
Proof.
  intros H. split.
  - destruct (Ascii.eqb c "%") eqn:E; [|reflexivity].
    apply Ascii.eqb_eq in E. subst c. discriminate.
  - destruct (Ascii.eqb c "+") eqn:E; [|reflexivity].
    apply Ascii.eqb_eq in E. subst c. discriminate.
Qed.

Lemma forallb_same {A} (f g : A -> bool) (l : list A) :
  (forall x, f x = g x) -> forallb f l = forallb g l.
Proof.
  intros H. induction l as [|x l IH]; [reflexivity|].
  cbn [forallb]. now rewrite H, IH.
Qed.

(** [url.QueryUnescape] undoes [url.QueryEscape]. *)
Lemma QueryEscape_decodes (s : string) :
  GoURL.unescape true (QueryEscape s) = Some s.
Proof.
  induction s as [|c s IH]; [reflexivity|].
  cbn [QueryEscape].
  destruct (Ascii.eqb c " ") eqn:Hsp.
  - apply Ascii.eqb_eq in Hsp. subst c.
    cbn [GoURL.unescape]. change (Ascii.eqb "+" "%") with false.
    cbv iota. rewrite IH. reflexivity.
  - destruct (shouldEscape c) eqn:Hesc.
    + cbn [GoURL.unescape]. rewrite Ascii.eqb_refl.
      pose proof (nat_ascii_bounded c) as Hc.
      rewrite !unhex_hex
        by (try apply Nat.mod_upper_bound; try apply Nat.Div0.div_lt_upper_bound;
            lia).
      rewrite IH. cbn [option_map].
      rewrite <- (Nat.div_mod_eq (nat_of_ascii c) 16), ascii_nat_embedding.
      reflexivity.
    + destruct (unescaped_plain c Hesc) as [Hpct Hplus].
      cbn [GoURL.unescape]. rewrite Hpct, Hplus, andb_false_r, IH.
      reflexivity.
Qed.

(** X4.  The query sent to the index is the fixed endpoint, the escaped
    destination, [&from=], the date and the fixed filters.  The escaped
    destination decodes back to the destination, byte for byte, and holds
    letters, digits and [-_.~%+] only, so no byte of the destination can
    end the [url] parameter or add another one. *)
Theorem cdxQuery_destination_escaped (originalURL date : string) :
  cdxQuery originalURL date
  = "http://web.archive.org/cdx/search/cdx?url=" ++ QueryEscape originalURL
      ++ "&from=" ++ date
      ++ "&filter=statuscode:200&filter=mimetype:text/html&limit=1&output=json"
  /\ GoURL.unescape true (QueryEscape originalURL) = Some originalURL
  /\ forallb
       (fun c =>
          Escape.between "a" c "z" || Escape.between "A" c "Z"
          || Escape.between "0" c "9"
          || existsb (Ascii.eqb c) (list_ascii_of_string "-_.~%+"))
       (list_ascii_of_string (QueryEscape originalURL)) = true
  /\ Contains (QueryEscape originalURL) "&" = false
  /\ Contains (QueryEscape originalURL) "=" = false
  /\ Contains (QueryEscape originalURL) "#" = false
  /\ Contains (QueryEscape originalURL) "?" = false.
Proof.
  split; [reflexivity|]. split; [apply QueryEscape_decodes|].
  pose proof (QueryEscape_escaped originalURL) as H.
  unfold allEscaped in H.
  split.
  { rewrite (forallb_same _ escaped); [exact H|]. intros c.
    unfold escaped, isAlnum. cbn [existsb list_ascii_of_string].
    destruct (between "a" c "z"), (between "A" c "Z"), (between "0" c "9");
      try reflexivity.
    cbn [orb].
    destruct (Ascii.eqb c "-"), (Ascii.eqb c "_"), (Ascii.eqb c "."),
      (Ascii.eqb c "~"), (Ascii.eqb c "%"), (Ascii.eqb c "+"); reflexivity. }
  assert (Hfree : forall c : ascii, escaped c = false ->
            Contains (QueryEscape originalURL) (String c "") = false).
  { intros c Hc. unfold Contains, Index.
    assert (Hnone : find (String c "") (QueryEscape originalURL) = None).
    { induction (QueryEscape originalURL) as [|d s IH]; [reflexivity|].
      cbn [list_ascii_of_string forallb] in H.
      apply andb_true_iff in H as [Hd Hs].
      cbn [find String.prefix].
      destruct (ascii_dec c d) as [<-|_]; [congruence|].
      now rewrite (IH Hs). }
    now rewrite Hnone. }
  repeat split; apply Hfree; reflexivity.
Qed.

(** X5.  The resolver succeeds exactly on the answers that carry a
    timestamp: status 200, a JSON array, a second row that is an array, a
    second element of it that is a string. *)
Theorem getWaybackURL_succeeds_iff
    (get : string -> CdxReply) (D T waybackURL : string) :
  getWaybackURL get D T = Ok waybackURL <->
  exists body rows row S,
    get (cdxQuery D T) = GetResponse 200 body
    /\ decodeSlice body = inr rows
    /\ nth_error rows 1 = Some (JArray row)
    /\ nth_error row 1 = Some (JString S)
    /\ waybackURL = archivePrefix ++ S ++ "/" ++ D.
Proof.
  split.
  - unfold getWaybackURL.
    destruct (get (cdxQuery D T)) as [e|code body] eqn:Hget; [discriminate|].
    destruct (code =? 200) eqn:Hcode; cbn [negb]; [|discriminate].
    apply Z.eqb_eq in Hcode. subst code.
    destruct (decodeSlice body) as [e|rows] eqn:Hdec; [discriminate|].
    destruct rows as [|r0 [|r1 rows]]; try discriminate.
    cbn [List.length Nat.ltb Nat.leb nth].
    destruct r1 as [| | | |row|]; try discriminate.
    destruct row as [|c0 [|c1 row]]; try discriminate.
    cbn [List.length Nat.ltb Nat.leb nth].
    destruct c1 as [| | |S| |]; try discriminate.
    intros [= <-].
    exists body, (r0 :: JArray (c0 :: JString S :: row) :: rows),
      (c0 :: JString S :: row), S.
    repeat split. exact Hdec.
  - intros [body [rows [row [S [Hget [Hdec [Hrow [Hts ->]]]]]]]].
    exact (getWaybackURL_complete get D T body rows row S Hget Hdec Hrow Hts).
Qed.

(** X6.  A status other than 200 is an error that names the status,
    whatever the body holds; the body is not decoded. *)
Theorem getWaybackURL_status_first
    (get : string -> CdxReply) (D T : string) (code : Z) (body : string + json) :
  get (cdxQuery D T) = GetResponse code body ->
  code <> 200 ->
  getWaybackURL get D T = Err ("CDX API returned status " ++ Itoa code).
Proof.
  intros Hget Hcode. unfold getWaybackURL. rewrite Hget.
  apply Z.eqb_neq in Hcode. now rewrite Hcode.
Qed.

Lemma getWaybackURL_status_first_witness :
  getWaybackURL
    (fun _ => GetResponse 503
                (inr (JArray [JArray []; JArray [JNull; JString "20020405123000"]])))
    "http://example.com/" "20020401"
  = Err "CDX API returned status 503".
Proof.
  apply (getWaybackURL_status_first _ _ _ 503
           (inr (JArray [JArray []; JArray [JNull; JString "20020405123000"]])));
    [reflexivity | discriminate].
Defined.

(** X7.  An answer with no capture: [null], an empty array or the header
    row alone make the resolver fail with the message that names the
    destination. *)
Theorem getWaybackURL_no_capture
    (get : string -> CdxReply) (D T : string) (body : string + json)
    (rows : list json) :
  get (cdxQuery D T) = GetResponse 200 body ->
  decodeSlice body = inr rows ->
  (List.length rows < 2)%nat ->
  getWaybackURL get D T = Err ("no archived version found for " ++ D).
Proof.
  intros Hget Hdec Hlen. unfold getWaybackURL. rewrite Hget. cbn [Z.eqb negb].
  change (200 =? 200) with true. cbn [negb]. rewrite Hdec.
  apply Nat.ltb_lt in Hlen. now rewrite Hlen.
Qed.

Lemma getWaybackURL_no_capture_witness :
  getWaybackURL (fun _ => GetResponse 200 (inr JNull)) "http://example.com/" "20020401"
  = Err "no archived version found for http://example.com/"
  /\ getWaybackURL
       (fun _ => GetResponse 200 (inr (JArray [JArray [JString "urlkey"]])))
       "http://example.com/" "20020401"
     = Err "no archived version found for http://example.com/".
Proof.
  split.
  - apply (getWaybackURL_no_capture _ _ _ (inr JNull) []);
      [reflexivity | reflexivity | simpl; lia].
  - apply (getWaybackURL_no_capture _ _ _
             (inr (JArray [JArray [JString "urlkey"]]))
             [JArray [JString "urlkey"]]);
      [reflexivity | reflexivity | simpl; lia].
Defined.

End ResolverLaws.

(** ** The retrying forwarder, continued *)

Module ForwarderLaws.

Import Forwarder ForwarderFacts.

(** *** The trace of a run *)

(** The sleeps and the shared delay that go with [calls st] proxy calls
    of a run that started from [delay]. *)
Definition traced (delay : Z) (st : Loop) : Prop :=
  slept st = backoff delay (calls st - 1)
  /\ retryDelay st = int64 (delay * 2 ^ Z.of_nat (calls st - 1)).

Lemma backoff_snoc (delay : Z) (n : nat) :
  backoff delay (S n)
  = (backoff delay n ++ [int64 (delay * 2 ^ Z.of_nat n)])%list.
Proof. unfold backoff. now rewrite seq_S, map_app. Qed.

Lemma traced_start (delay : Z) :
  - 2 ^ 63 <= delay < 2 ^ 63 -> traced delay (start delay).
Proof.
  intros H. split; [reflexivity|].
  cbn [start retryDelay calls Nat.sub Z.of_nat Z.pow].
  now rewrite Z.mul_1_r, int64_small.
Qed.

(** One more proxy call keeps the trace in step. *)
Lemma traced_call (delay : Z) (a : Attempt) (st : Loop) :
  traced delay st -> traced delay (call a (pause (calls st) st)).
Proof.
  unfold traced. intros [Hslept Hdelay].
  destruct (calls st) as [|n] eqn:E.
  - cbn [pause call slept retryDelay calls]. rewrite E. now split.
  - replace (S n - 1)%nat with n in Hslept, Hdelay by lia.
    cbn [pause call slept retryDelay calls]. rewrite E.
    replace (S (S n) - 1)%nat with (S n) by lia.
    rewrite Hslept, Hdelay, backoff_snoc. split; [reflexivity|].
    rewrite int64_mul. f_equal.
    rewrite Nat2Z.inj_succ, Z.pow_succ_r by lia. ring.
Qed.

Lemma calls_call_pause (a : Attempt) (n : nat) (st : Loop) :
  calls (call a (pause n st)) = S (calls st).
Proof. now destruct n. Qed.

Lemma traced_ext (delay : Z) (st st' : Loop) :
  slept st' = slept st -> retryDelay st' = retryDelay st -> calls st' = calls st ->
  traced delay st -> traced delay st'.
Proof. unfold traced. intros -> -> ->. tauto. Qed.

Lemma loop_traced (serve : nat -> Attempt) (delay : Z) (n : nat) (st : Loop) :
  traced delay st ->
  let st' := snd (loop serve n (calls st) st) in
  traced delay st' /\ (calls st <= calls st' <= calls st + n)%nat.
Proof.
  revert st.
  induction n as [|n IH]; intros st Htr; cbn [loop].
  - cbn [snd]. split; [exact Htr | lia].
  - pose proof (traced_call delay (serve (calls st)) st Htr) as Hcall.
    unfold iteration.
    set (st1 := call (serve (calls st)) (pause (calls st) st)) in *.
    assert (Hcalls : calls st1 = S (calls st))
      by (subst st1; apply calls_call_pause).
    destruct (success (rec (serve (calls st)))).
    + cbn [snd]. split; [exact Hcall | lia].
    + destruct (retryable (rec (serve (calls st)))).
      * assert (Htr2 : traced delay (markRetry (failed (serve (calls st)) st1)))
          by (now apply (traced_ext delay st1)).
        specialize (IH _ Htr2).
        change (calls (markRetry (failed (serve (calls st)) st1)))
          with (calls st1) in IH.
        rewrite Hcalls in IH. cbv zeta in IH.
        destruct IH as [IH1 IH2]. split; [exact IH1 | lia].
      * cbn [snd]. split.
        -- now apply (traced_ext delay st1).
        -- change (calls (failed (serve (calls st)) st1)) with (calls st1). lia.
Qed.

Lemma final_forward (mode : Mode) (N delay : Z) (serve : nat -> Attempt) :
  final (forward mode N delay serve)
  = snd (loop serve (Z.to_nat N) 0 (start delay)).
Proof.
  unfold forward.
  now destruct (loop serve (Z.to_nat N) 0 (start delay)) as [[w|] st].
Qed.

Lemma final_traced (mode : Mode) (N delay : Z) (serve : nat -> Attempt) :
  - 2 ^ 63 <= delay < 2 ^ 63 ->
  traced delay (final (forward mode N delay serve))
  /\ (calls (final (forward mode N delay serve)) <= Z.to_nat N)%nat.
Proof.
  intros Hrange. rewrite final_forward.
  pose proof (loop_traced serve delay (Z.to_nat N) (start delay)
                (traced_start delay Hrange)) as H.
  cbn [start calls] in H. cbv zeta in H.
  destruct H as [Htr Hcalls]. split; [exact Htr | lia].
Qed.

(** X8.  For every upstream, the proxy is called at most [maxRetries]
    times, the loop sleeps once before every call but the first, the
    [k]-th sleep lasts [delay * 2^k] (in 64 bits), and the shared delay is
    left at [delay * 2^(calls-1)]: it is not restored, so the next request
    starts from the doubled value. *)
Theorem forward_trace (mode : Mode) (N delay : Z) (serve : nat -> Attempt) :
  - 2 ^ 63 <= delay < 2 ^ 63 ->
  let st := final (forward mode N delay serve) in
  (calls st <= Z.to_nat N)%nat
  /\ List.length (slept st) = (calls st - 1)%nat
  /\ slept st = backoff delay (calls st - 1)
  /\ retryDelay st = int64 (delay * 2 ^ Z.of_nat (calls st - 1)).
Proof.
  intros Hrange. cbv zeta.
  destruct (final_traced mode N delay serve Hrange) as [[Hslept Hdelay] Hcalls].
  split; [exact Hcalls|]. split; [|split; assumption].
  rewrite Hslept. unfold backoff. now rewrite length_map, length_seq.
Qed.

Lemma forward_trace_witness :
  let serve k := match k with
                 | O => answers 502 "" | 1%nat => answers 502 ""
                 | _ => answers 200 "ok"
                 end in
  let st := final (forward FixedOrigin 5 1000000000 serve) in
  calls st = 3%nat
  /\ (calls st <= Z.to_nat 5)%nat
  /\ List.length (slept st) = (calls st - 1)%nat
  /\ slept st = backoff 1000000000 (calls st - 1)
  /\ retryDelay st = int64 (1000000000 * 2 ^ Z.of_nat (calls st - 1)).
Proof.
  cbv zeta. split; [reflexivity|].
  apply (forward_trace FixedOrigin 5 1000000000). lia.
Defined.

(** *** How a run ends *)

(** X9.  What the client gets is either the synthetic 502 or the code,
    headers and body recorded at one of the attempts: the handler never
    sends the synthetic 500, and with [maxRetries >= 1] it always
    answers. *)
Theorem forward_answers (mode : Mode) (N delay : Z) (serve : nat -> Attempt) :
  1 <= N ->
  (outcome (forward mode N delay serve)
   = Responded (Error (exhaustedMsg mode N) 502)
   \/ exists k, (k < Z.to_nat N)%nat
                /\ outcome (forward mode N delay serve)
                   = Responded (copyOf (rec (serve k))))
  /\ forall msg, outcome (forward mode N delay serve)
                 <> Responded (Error msg 500).
Proof.
  intros HN. split.
  - destruct (forward_ends mode N delay serve) as [[H _]|[_ H]]; [lia | exact H].
  - intros msg. apply forward_never_500.
Qed.

Lemma forward_answers_witness :
  let serve (k : nat) := answers 500 "oops" in
  (outcome (forward ArchiveMode 3 1000 serve)
   = Responded (Error (exhaustedMsg ArchiveMode 3) 502)
   \/ exists k, (k < Z.to_nat 3)%nat
                /\ outcome (forward ArchiveMode 3 1000 serve)
                   = Responded (copyOf (rec (serve k))))
  /\ forall msg, outcome (forward ArchiveMode 3 1000 serve)
                 <> Responded (Error msg 500).
Proof.
  cbv zeta. apply (forward_answers ArchiveMode 3 1000). lia.
Defined.

(** X10.  Retryable failures followed by a success: the successful
    response is copied to the client as recorded, after one call per
    attempt and the backoff sleeps in between, and no further attempt is
    made. *)
Theorem forward_recovers
    (mode : Mode) (N delay : Z) (serve : nat -> Attempt) (n : nat) :
  - 2 ^ 63 <= delay < 2 ^ 63 ->
  (n < Z.to_nat N)%nat ->
  (forall k, (k < n)%nat -> classify (serve k) = RETRYABLE_FAILURE) ->
  classify (serve n) = SUCCESS ->
  outcome (forward mode N delay serve) = Responded (copyOf (rec (serve n)))
  /\ calls (final (forward mode N delay serve)) = S n
  /\ slept (final (forward mode N delay serve)) = backoff delay n.
Proof.
  intros Hrange Hn Hretry Hok.
  assert (Hrun : forward mode N delay serve
                 = {| outcome := Responded (copyOf (rec (serve n)));
                      final := call (serve n)
                                 (pause n (retries serve 0 n (start delay))) |}).
  { unfold forward.
    replace (Z.to_nat N) with (n + S (Z.to_nat N - S n))%nat by lia.
    rewrite loop_retries by (intros k Hk; apply Hretry; lia).
    cbn [loop Nat.add]. now rewrite iteration_success. }
  assert (Hcalls : calls (final (forward mode N delay serve)) = S n).
  { rewrite Hrun. cbn [final call calls].
    replace (calls (pause n (retries serve 0 n (start delay))))
      with (calls (retries serve 0 n (start delay))) by (now destruct n).
    now rewrite calls_retries. }
  split; [now rewrite Hrun|]. split; [exact Hcalls|].
  destruct (final_traced mode N delay serve Hrange) as [[Hslept _] _].
  rewrite Hslept, Hcalls. cbn [Nat.sub]. now rewrite Nat.sub_0_r.
Qed.

Lemma forward_recovers_witness :
  let serve k := match k with
                 | O => answers 502 "" | 1%nat => answers 502 ""
                 | _ => answers 200 "<p>page</p>"
                 end in
  outcome (forward ArchiveMode 3 1000000000 serve)
  = Responded (Copy 200 [("Content-Type", ["text/html"])] "<p>page</p>")
  /\ calls (final (forward ArchiveMode 3 1000000000 serve)) = 3%nat
  /\ slept (final (forward ArchiveMode 3 1000000000 serve))
     = [1000000000; 2000000000].
Proof.
  cbv zeta.
  apply (forward_recovers ArchiveMode 3 1000000000
           (fun k => match k with
                     | O => answers 502 "" | 1%nat => answers 502 ""
                     | _ => answers 200 "<p>page</p>"
                     end) 2);
    [lia | simpl; lia | | reflexivity].
  intros [|[|k]] Hk; [reflexivity | reflexivity | lia].
Defined.

(** X11.  A first response outside 2xx/3xx that is not retryable (a
    404, say): one call, no sleep, the shared delay untouched, and the
    recorded response is what the client gets. *)
Theorem forward_terminal_once
    (mode : Mode) (N delay : Z) (serve : nat -> Attempt) :
  1 <= N -> classify (serve O) = TERMINAL_FAILURE ->
  forward mode N delay serve
  = {| outcome := Responded (copyOf (rec (serve O)));
       final := {| lastErr :=
                     Some ("proxy returned status "
                             ++ Itoa (ResultStatusCode (rec (serve O))));
                   recorder := Some (rec (serve O));
                   shouldRetry := false; retryDelay := delay;
                   slept := []; calls := 1 |} |}.
Proof.
  intros HN Hterm.
  rewrite (forward_retries_then_terminal mode N delay serve 0);
    [reflexivity | lia | intros k Hk; lia | exact Hterm].
Qed.

Lemma forward_terminal_once_witness :
  outcome (forward FixedOrigin 3 1000000000 (fun _ => answers 404 "<h1>gone</h1>"))
  = Responded (Copy 404 [("Content-Type", ["text/html"])] "<h1>gone</h1>")
  /\ calls (final (forward FixedOrigin 3 1000000000
                     (fun _ => answers 404 "<h1>gone</h1>"))) = 1%nat.
Proof.
  rewrite (forward_terminal_once FixedOrigin 3 1000000000
             (fun _ => answers 404 "<h1>gone</h1>") ltac:(lia) eq_refl).
  split; reflexivity.
Defined.

(** *** The connection-refused test *)

Definition statusOnly (code : Z) : Recorder :=
  {| Code := code; HeaderMap := []; Body := "" |}.

Definition agrees (n : nat) : bool :=
  Bool.eqb (retryable (statusOnly (Z.of_nat n))) (Z.of_nat n =? 502).

Lemma agrees_all : forallb agrees (seq 0 1000) = true.
Proof. vm_compute. reflexivity. Qed.

(** X12.  The status line of a recorder is the three-digit code and
    Go's status text, which never reads "connection refused": for every
    code a handler can write (100 to 999, or none) an attempt is retryable
    exactly when its status is 502. *)
Theorem retryable_iff_502 (r : Recorder) :
  0 <= Code r <= 999 -> retryable r = (ResultStatusCode r =? 502).
Proof.
  intros Hcode.
  assert (Hin : In (Z.to_nat (Code r)) (seq 0 1000)) by (apply in_seq; lia).
  pose proof (proj1 (forallb_forall agrees (seq 0 1000)) agrees_all _ Hin) as H.
  unfold agrees in H. rewrite Z2Nat.id in H by lia.
  apply Bool.eqb_prop in H.
  destruct r as [code h b]. cbn [Code] in *.
  change (retryable {| Code := code; HeaderMap := h; Body := b |})
    with (retryable (statusOnly code)).
  rewrite H. unfold ResultStatusCode. cbn [Code].
  destruct (code =? 0) eqn:E; [|reflexivity].
  apply Z.eqb_eq in E. now subst.
Qed.

Lemma retryable_iff_502_witness :
  retryable (statusOnly 502) = true /\ retryable (statusOnly 503) = false.
Proof.
  split.
  - rewrite (retryable_iff_502 (statusOnly 502)); [reflexivity | simpl; lia].
  - rewrite (retryable_iff_502 (statusOnly 503)); [reflexivity | simpl; lia].
Defined.

End ForwarderLaws.

(** ** The rewriting hooks, continued *)

Module RewriteLaws.

Import Screenshot Router Forwarder GoStringsFacts ScreenshotFacts RouterFacts.

Lemma matchAt_needs_openTag (s : string) :
  String.prefix openTag s = false -> matchAt s = None.
Proof. unfold matchAt. now intros ->. Qed.

(** X13.  A page without [<div] is returned by the screenshot strip as
    it is. *)
Theorem stripScreenshots_no_div (html : string) :
  Index html "<div" = -1 -> stripScreenshots html = html.
Proof.
  intros H. apply ToolbarLaws.Index_absent in H.
  unfold stripScreenshots.
  induction html as [|c html IH]; [reflexivity|].
  cbn [find] in H. fold openTag in H.
  destruct (String.prefix openTag (String c html)) eqn:Hp; [discriminate|].
  destruct (find openTag html) eqn:Hf; [discriminate|].
  cbn [replaceFrom]. rewrite (matchAt_needs_openTag _ Hp).
  now rewrite (IH Hf).
Qed.

Lemma stripScreenshots_no_div_witness :
  stripScreenshots "<html><p class=card-image>text</p></html>"
  = "<html><p class=card-image>text</p></html>".
Proof. apply stripScreenshots_no_div. reflexivity. Defined.

(** X14.  A [card-image] element on one line, after text without [<]:
    the element up to its first [</div>] is replaced by the placeholder
    comment, the text before it is kept, and the rewriting goes on after
    the closing tag. *)
Theorem stripScreenshots_one_line
    (pre : string) (c : ascii) (ws inner post : string) :
  forallb (fun x => negb (Ascii.eqb x "<")) (list_ascii_of_string pre) = true ->
  isSpace c = true -> allSpaces ws = true ->
  noLineFeed inner = true ->
  find closeTag (inner ++ closeTag) = Some (String.length inner) ->
  stripScreenshots (pre ++ block (String c ws) inner ++ post)
  = pre ++ placeholder ++ stripScreenshots post.
Proof.
  intros Hpre Hc Hws Hlf Hfirst.
  rewrite (stripScreenshots_text pre _ Hpre).
  now rewrite (stripScreenshots_block c ws inner post Hc Hws Hlf Hfirst).
Qed.

Lemma stripScreenshots_one_line_witness :
  stripScreenshots
    ("Sites: " ++ block "  " "<img src=a.png><span>x</span>" ++ "</div> end")
  = "Sites: " ++ placeholder ++ "</div> end".
Proof.
  exact (stripScreenshots_one_line "Sites: " " " " "
           "<img src=a.png><span>x</span>" "</div> end"
           eq_refl eq_refl eq_refl eq_refl eq_refl).
Defined.

Section WithURL.

Context {net : NetURL}.

Lemma Get_Set_other (h : Header) (key value other : string) :
  String.eqb key other = false ->
  Get (Set_ h key value) other = Get h other.
Proof.
  intros Hne.
  induction h as [|[k vs] h IH]; simpl.
  - now rewrite Hne.
  - destruct (String.eqb k key) eqn:E; simpl.
    + apply String.eqb_eq in E. subst k. now rewrite Hne.
    + now rewrite IH.
Qed.

(** X15.  A response whose content type is not HTML goes through both
    hooks untouched, and the archive hook cannot panic on it. *)
Theorem hooks_leave_other_content (resp : Response) :
  isHTML resp = false ->
  geocitiesModifyResponse resp = resp
  /\ archiveModifyResponse resp = Some resp.
Proof.
  intros H. unfold geocitiesModifyResponse, archiveModifyResponse.
  rewrite H. split; [|reflexivity].
  now destruct (_ && _).
Qed.

(** X16.  When the fixed-origin hook rewrites an HTML response that is
    not a redirect, the body is the stripped page, the [Content-Length]
    header and field are the byte length of the new body, and the status
    and every other header are those of the upstream. *)
Theorem geocities_hook_rewrites (resp : Response) (key : string) :
  isHTML resp = true ->
  StatusCode resp < 300 \/ 400 <= StatusCode resp ->
  let out := geocitiesModifyResponse resp in
  RespBody out = stripScreenshots (RespBody resp)
  /\ Get (RespHeader out) "Content-Length" = Itoa (len (RespBody out))
  /\ ContentLength out = len (RespBody out)
  /\ StatusCode out = StatusCode resp
  /\ (String.eqb "Content-Length" key = false ->
      Get (RespHeader out) key = Get (RespHeader resp) key).
Proof.
  intros Hhtml Hcode. cbv zeta.
  rewrite (geocitiesModifyResponse_html resp Hhtml Hcode).
  unfold withBody. cbn [RespBody RespHeader ContentLength StatusCode].
  rewrite Get_Set. repeat split. apply Get_Set_other.
Qed.

(** X17.  Whatever the archive hook returns declares the byte length of
    the body it returns when the response is HTML, and is the upstream
    response otherwise; on HTML it returns exactly when
    [removeWaybackToolbar] does. *)
Theorem archive_hook_length (resp out : Response) :
  archiveModifyResponse resp = Some out ->
  StatusCode out = StatusCode resp
  /\ (isHTML resp = true ->
      Toolbar.removeWaybackToolbar (RespBody resp) = Some (RespBody out)
      /\ Get (RespHeader out) "Content-Length" = Itoa (len (RespBody out))
      /\ ContentLength out = len (RespBody out))
  /\ (isHTML resp = false -> out = resp).
Proof.
  unfold archiveModifyResponse.
  destruct (isHTML resp).
  - destruct (Toolbar.removeWaybackToolbar (RespBody resp)) as [html|] eqn:E;
      [|discriminate].
    cbn [option_map]. intros [= <-].
    unfold withBody. cbn [RespBody RespHeader ContentLength StatusCode].
    split; [reflexivity|]. split; [|discriminate].
    intros _. rewrite Get_Set. now repeat split.
  - intros [= <-]. split; [reflexivity|]. split; [discriminate | reflexivity].
Qed.

Definition decorated : Response :=
  {| StatusCode := 200;
     RespHeader := [("Content-Type", ["text/html"])];
     RespBody := "<html>" ++ Toolbar.beginMarker ++ "bar" ++ Toolbar.endMarker
                   ++ String lf "<p>hello</p></html>";
     ContentLength := 104 |}.

Lemma archive_hook_length_witness :
  let out := withBody decorated "<html><p>hello</p></html>" in
  archiveModifyResponse decorated = Some out
  /\ Get (RespHeader out) "Content-Length" = Itoa (len (RespBody out))
  /\ Itoa (len (RespBody out)) = "25".
Proof.
  cbv zeta. split; [reflexivity|]. split; [|reflexivity].
  destruct (archive_hook_length decorated
              (withBody decorated "<html><p>hello</p></html>") eq_refl)
    as [_ [H _]].
  exact (proj1 (proj2 (H eq_refl))).
Defined.

End WithURL.

End RewriteLaws.

(** ** The router, continued *)

Module RoutingLaws.

Import Router Forwarder Resolver Redirect GoStringsFacts RouterFacts.

Definition noSlash (s : string) : bool :=
  forallb (fun c => negb (Ascii.eqb c "/")) (list_ascii_of_string s).

Lemma Split_nonempty (s : string) (sep : ascii) : Split s sep <> [].
Proof.
  induction s as [|c s IH]; cbn [Split]; [discriminate|].
  destruct (Ascii.eqb c sep); [discriminate|].
  now destruct (Split s sep).
Qed.

(** [strings.Split] cuts at the first separator. *)
Lemma Split_segment (a b : string) :
  noSlash a = true ->
  Split (a ++ String "/" b) "/" = a :: Split b "/".
Proof.
  induction a as [|c a IH]; intros Ha; [reflexivity|].
  cbn [noSlash list_ascii_of_string forallb] in Ha.
  apply andb_true_iff in Ha as [Hc Ha].
  change (String c a ++ String "/" b) with (String c (a ++ String "/" b)).
  cbn [Split]. apply negb_true_iff in Hc. rewrite Hc.
  now rewrite (IH Ha).
Qed.

(** [strings.Join] undoes [strings.Split]. *)
Lemma Join_Split (s : string) : Join (Split s "/") "/" = s.
Proof.
  unfold Join.
  induction s as [|c s IH]; [reflexivity|].
  cbn [Split].
  pose proof (Split_nonempty s "/") as Hne.
  destruct (Ascii.eqb c "/") eqn:E.
  - apply Ascii.eqb_eq in E. subst c.
    destruct (Split s "/") as [|h t]; [contradiction|].
    cbn [String.concat] in *. now rewrite IH.
  - destruct (Split s "/") as [|h t]; [contradiction|].
    cbn [String.concat] in *.
    destruct t; [now rewrite <- IH | ].
    now rewrite <- IH.
Qed.

Section WithURL.

Context {net : NetURL}.

(** X18.  What the router takes for the wrapped destination of an
    archive URL [prefix + timestamp + "/" + first + "/" + rest] is
    [http://] followed by [rest]: the timestamp and the first segment of
    the destination (its scheme, when it has one) are dropped, and
    everything after them, slashes and query included, is kept. *)
Theorem reconstructed_drops_first_segment
    (r : Request) (timestamp first rest : string) :
  URLString r = archivePrefix ++ timestamp ++ "/" ++ first ++ "/" ++ rest ->
  noSlash timestamp = true -> noSlash first = true ->
  reconstructed r = "http://" ++ rest
  /\ (7 <= List.length (Split (URLString r) "/"))%nat.
Proof.
  intros Hurl Hts Hfirst. unfold reconstructed. rewrite Hurl.
  change (archivePrefix ++ timestamp ++ "/" ++ first ++ "/" ++ rest)
    with ("http:" ++ String "/"
            ("" ++ String "/"
               ("web.archive.org" ++ String "/"
                  ("web" ++ String "/"
                     (timestamp ++ String "/" (first ++ String "/" rest)))))).
  rewrite !Split_segment by (reflexivity || assumption).
  cbn [skipn List.length]. split; [now rewrite Join_Split|].
  pose proof (Split_nonempty rest "/") as Hne.
  destruct (Split rest "/"); [contradiction | simpl; lia].
Qed.

Lemma reconstructed_drops_first_segment_witness :
  let r := {| ReqHost := "web.archive.org";
              URLPath := "/web/20020405123000/http://example.com/a/b";
              URLRawQuery := "x=1";
              URLString := "http://web.archive.org/web/20020405123000/http://example.com/a/b?x=1" |} in
  reconstructed r = "http:///example.com/a/b?x=1"
  /\ (7 <= List.length (Split (URLString r) "/"))%nat.
Proof.
  cbv zeta.
  apply (reconstructed_drops_first_segment _ "20020405123000" "http:"
           "/example.com/a/b?x=1"); reflexivity.
Defined.

(** X19.  A host that contains the name of the mirror is served in
    fixed-origin mode (the equality test of the source adds nothing), and
    in that mode the handler does not depend on the snapshot index or on
    the date: the resolver is not called. *)
Theorem fixed_origin_skips_resolver (env : Env) (r : Request)
    (index : string -> CdxReply) (otherDate : string) :
  isGeocitiesRequest r = Contains (ReqHost r) geocitiesHost
  /\ (Contains (ReqHost r) geocitiesHost = true ->
      handleRequest env r
      = handleRequest
          {| date := otherDate; maxRetries := maxRetries env;
             retryDelayFlag := retryDelayFlag env;
             cdxGet := index; roundTrip := roundTrip env |} r).
Proof.
  assert (Hgeo : isGeocitiesRequest r = Contains (ReqHost r) geocitiesHost).
  { unfold isGeocitiesRequest.
    destruct (String.eqb (ReqHost r) geocitiesHost) eqn:E;
      [|apply orb_false_r].
    apply String.eqb_eq in E. rewrite E. reflexivity. }
  split; [exact Hgeo|].
  intros H. unfold handleRequest. rewrite Hgeo, H. reflexivity.
Qed.

End WithURL.

End RoutingLaws.

(** ** Runs with the model of [net/url], continued *)

Module RunLaws.

Import Router Forwarder Resolver Redirect RouterFacts Runs.
Import Screenshot ScreenshotFacts RewriteLaws.

#[local] Existing Instance GoURL.goURL.

Lemma hooks_leave_other_content_witness :
  let png := {| StatusCode := 200; RespHeader := [("Content-Type", ["image/png"])];
                RespBody := Toolbar.beginMarker ++ Toolbar.endMarker;
                ContentLength := 72 |} in
  geocitiesModifyResponse png = png /\ archiveModifyResponse png = Some png.
Proof. cbv zeta. apply hooks_leave_other_content. reflexivity. Defined.

Lemma geocities_hook_rewrites_witness :
  let page := "<ul>" ++ block " " "<img src=a.png>" ++ "</ul>" in
  let resp := {| StatusCode := 200;
                 RespHeader := [("Content-Type", ["text/html"]);
                                ("Content-Length", ["57"]);
                                ("Server", ["nginx"])];
                 RespBody := page; ContentLength := 57 |} in
  let out := geocitiesModifyResponse resp in
  RespBody out = "<ul>" ++ placeholder ++ "</ul>"
  /\ Get (RespHeader out) "Content-Length" = "52"
  /\ Get (RespHeader out) "Server" = "nginx".
Proof.
  cbv zeta.
  destruct (geocities_hook_rewrites
              {| StatusCode := 200;
                 RespHeader := [("Content-Type", ["text/html"]);
                                ("Content-Length", ["57"]);
                                ("Server", ["nginx"])];
                 RespBody := "<ul>" ++ block " " "<img src=a.png>" ++ "</ul>";
                 ContentLength := 57 |} "Server" eq_refl ltac:(left; simpl; lia))
    as [Hbody [Hlen [_ [_ Hother]]]].
  split; [exact Hbody|]. split; [exact Hlen | exact (Hother eq_refl)].
Defined.


Lemma handleRequest_resolution_error_witness :
  let e := env (fun _ => GetResponse 200 (inr (JArray [])))
             (fun _ _ => TransportError "unused") in
  let r := proxyRequest "example.com" "/" "" in
  outcome (handleRequest e r)
  = Responded
      (Error "Error finding archived version: no archived version found for http://example.com/" 500)
  /\ calls (final (handleRequest e r)) = O.
Proof.
  cbv zeta.
  apply (handleRequest_resolution_error
           (env (fun _ => GetResponse 200 (inr (JArray [])))
              (fun _ _ => TransportError "unused"))
           (proxyRequest "example.com" "/" "")
           "http://example.com/"
           "no archived version found for http://example.com/");
    reflexivity.
Defined.

(** X21.  In fixed-origin mode every proxy call goes to
    [https://geocities.restorativland.org] with the path of the inbound
    request ([/] when it is empty) and its query, whatever the inbound
    host and scheme were, and its responses go through the screenshot
    hook. *)
Theorem fixed_origin_target (e : Env) (r : Request) :
  isGeocitiesRequest r = true ->
  handleRequest e r
  = forward FixedOrigin (maxRetries e) (retryDelayFlag e)
      (fun k =>
         ServeHTTP (fun resp => Some (geocitiesModifyResponse resp))
           (roundTrip e
              {| Scheme := "https"; Host := "geocities.restorativland.org";
                 Path := if String.eqb (URLPath r) "" then "/" else URLPath r;
                 RawQuery := URLRawQuery r |} k)).
Proof.
  intros H. unfold handleRequest. rewrite H. reflexivity.
Qed.

Lemma fixed_origin_target_witness :
  let r := proxyRequest "www.geocities.restorativland.org:80" "" "page=2" in
  let target := geocitiesTarget "/" "page=2" in
  outcome (handleRequest
             (env (fun _ => GetError "unused") (serves target (html 404 "gone")))
             r)
  = Responded (Copy 404 [("Content-Type", ["text/html; charset=utf-8"]);
                         ("Content-Length", ["4"])] "gone").
Proof.
  cbv zeta.
  rewrite (fixed_origin_target _ (proxyRequest "www.geocities.restorativland.org:80"
                                    "" "page=2") eq_refl).
  reflexivity.
Defined.

End RunLaws.

(** ** Start-up: the date check of [main] *)

Module Startup.

(** How [main] goes on after [flag.Parse]: one of the three
    [log.Fatal] exits, or the server is started. *)
Inductive Start :=
| DateRequired
| DateNotYYYYMMDD
| InvalidDate
| Listen.

Definition digit (c : ascii) : option nat :=
  if Escape.between "0" c "9" then Some (nat_of_ascii c - 48)%nat else None.

(** A field of exactly two digits, as [time.Parse] reads [01] and [02]. *)
Definition twoDigits (a b : ascii) : option nat :=
  match digit a, digit b with
  | Some x, Some y => Some (10 * x + y)%nat
  | _, _ => None
  end.

Definition isLeap (year : nat) : bool :=
  ((year mod 4 =? 0) && (negb (year mod 100 =? 0) || (year mod 400 =? 0)))%nat.

Definition daysIn (month year : nat) : nat :=
  match month with
  | 2 => if isLeap year then 29 else 28
  | 4 | 6 | 9 | 11 => 30
  | _ => 31
  end%nat.

(** [time.Parse("20060102", value)]: four digits of year, two of month,
    two of day and nothing after them; the month is 1 to 12 and the day
    exists in that month.  The result is the date, [None] for an error. *)
Definition parseDate (value : string) : option (nat * nat * nat) :=
  match value with
  | String y1 (String y2 (String y3 (String y4
      (String m1 (String m2 (String d1 (String d2 EmptyString))))))) =>
      match twoDigits y1 y2, twoDigits y3 y4, twoDigits m1 m2, twoDigits d1 d2 with
      | Some hi, Some lo, Some month, Some day =>
          let year := (100 * hi + lo)%nat in
          if ((1 <=? month) && (month <=? 12)
              && (1 <=? day) && (day <=? daysIn month year))%nat
          then Some (year, month, day)
          else None
      | _, _, _, _ => None
      end
  | _ => None
  end.

(** The checks of [main] on the [-date] flag, in the order of the
    source. *)
Definition checkDate (date : string) : Start :=
  if String.eqb date "" then DateRequired
  else if negb (String.length date =? 8)%nat then DateNotYYYYMMDD
  else match parseDate date with
       | None => InvalidDate
       | Some _ => Listen
       end.

Definition allDigits (s : string) : bool :=
  forallb Resolver.isDigit (list_ascii_of_string s).

End Startup.

Module StartupLaws.

Import Startup Resolver.

Lemma twoDigits_digits (a b : ascii) (n : nat) :
  twoDigits a b = Some n ->
  isDigit a = true /\ isDigit b = true /\ (n <= 99)%nat.
Proof.
  unfold twoDigits, digit, isDigit.
  destruct (Escape.between "0" a "9") eqn:Ea; [|discriminate].
  destruct (Escape.between "0" b "9") eqn:Eb; [|discriminate].
  intros [= <-]. split; [reflexivity|]. split; [reflexivity|].
  unfold Escape.between in Ea, Eb.
  apply andb_true_iff in Ea as [_ Ea]. apply andb_true_iff in Eb as [_ Eb].
  apply Nat.leb_le in Ea, Eb.
  change (nat_of_ascii "9") with 57%nat in *. lia.
Qed.

Lemma checkDate_listen (date : string) :
  checkDate date = Listen ->
  String.length date = 8%nat /\ allDigits date = true
  /\ exists year month day,
       parseDate date = Some (year, month, day)
       /\ (1 <= month <= 12)%nat /\ (1 <= day <= daysIn month year)%nat.
Proof.
  unfold checkDate.
  destruct (String.eqb date ""); [discriminate|].
  destruct (String.length date =? 8)%nat eqn:Hlen; cbn [negb]; [|discriminate].
  apply Nat.eqb_eq in Hlen.
  destruct (parseDate date) as [[[year month] day]|] eqn:Hparse; [|discriminate].
  intros _. split; [exact Hlen|].
  unfold parseDate in Hparse.
  destruct date as [|y1 [|y2 [|y3 [|y4 [|m1 [|m2 [|d1 [|d2 [|x rest]]]]]]]]];
    try discriminate.
  destruct (twoDigits y1 y2) as [hi|] eqn:E1; [|discriminate].
  destruct (twoDigits y3 y4) as [lo|] eqn:E2; [|discriminate].
  destruct (twoDigits m1 m2) as [mo|] eqn:E3; [|discriminate].
  destruct (twoDigits d1 d2) as [da|] eqn:E4; [|discriminate].
  destruct (((1 <=? mo) && (mo <=? 12) && (1 <=? da)
             && (da <=? daysIn mo (100 * hi + lo)))%nat) eqn:Hrange;
    [|discriminate].
  injection Hparse as <- <- <-.
  apply twoDigits_digits in E1 as [Hy1 [Hy2 _]], E2 as [Hy3 [Hy4 _]],
      E3 as [Hm1' [Hm2' _]], E4 as [Hd1' [Hd2' _]].
  split.
  - unfold allDigits. cbn [list_ascii_of_string forallb].
    now rewrite Hy1, Hy2, Hy3, Hy4, Hm1', Hm2', Hd1', Hd2'.
  - exists (100 * hi + lo)%nat, mo, da.
    split; [reflexivity|].
    apply andb_true_iff in Hrange as [Hrange Hd2].
    apply andb_true_iff in Hrange as [Hrange Hd1].
    apply andb_true_iff in Hrange as [Hm1 Hm2].
    apply Nat.leb_le in Hm1, Hm2, Hd1, Hd2. lia.
Qed.

(** The decimal digit [n] as a byte, and the eight bytes of a date. *)
Definition digitChar (n : nat) : ascii := ascii_of_nat (48 + n).

Definition dateString (y1 y2 y3 y4 m1 m2 d1 d2 : nat) : string :=
  String (digitChar y1) (String (digitChar y2) (String (digitChar y3)
    (String (digitChar y4) (String (digitChar m1) (String (digitChar m2)
      (String (digitChar d1) (String (digitChar d2) EmptyString))))))).

Lemma digit_inv (c : ascii) (x : nat) :
  digit c = Some x -> c = digitChar x /\ (x <= 9)%nat.
Proof.
  unfold digit, Escape.between.
  destruct ((nat_of_ascii "0" <=? nat_of_ascii c)%nat
            && (nat_of_ascii c <=? nat_of_ascii "9")%nat) eqn:E; [|discriminate].
  intros [= <-].
  apply andb_true_iff in E as [Hlo Hhi]. apply Nat.leb_le in Hlo, Hhi.
  change (nat_of_ascii "0") with 48%nat in Hlo.
  change (nat_of_ascii "9") with 57%nat in Hhi.
  split; [|lia]. unfold digitChar.
  replace (48 + (nat_of_ascii c - 48))%nat with (nat_of_ascii c) by lia.
  now rewrite ascii_nat_embedding.
Qed.

Lemma digit_digitChar (x : nat) : (x <= 9)%nat -> digit (digitChar x) = Some x.
Proof.
  intros H. do 10 (destruct x as [|x]; [reflexivity|]). lia.
Qed.

Lemma twoDigits_inv (a b : ascii) (n : nat) :
  twoDigits a b = Some n ->
  exists x y, a = digitChar x /\ b = digitChar y
              /\ (x <= 9)%nat /\ (y <= 9)%nat /\ n = (10 * x + y)%nat.
Proof.
  unfold twoDigits.
  destruct (digit a) as [x|] eqn:Ea; [|discriminate].
  destruct (digit b) as [y|] eqn:Eb; [|discriminate].
  intros [= <-].
  apply digit_inv in Ea as [-> Hx], Eb as [-> Hy].
  now exists x, y.
Qed.

Lemma isLeap_spec (year : nat) :
  isLeap year = true
  <-> (year mod 4 = 0 /\ (year mod 100 <> 0 \/ year mod 400 = 0))%nat.
Proof.
  unfold isLeap.
  rewrite andb_true_iff, orb_true_iff, negb_true_iff, !Nat.eqb_eq, Nat.eqb_neq.
  tauto.
Qed.

(** The table of [daysIn], month by month. *)
Lemma daysIn_spec (month year day : nat) :
  (1 <= month <= 12)%nat ->
  (day <= daysIn month year)%nat
  <-> ((day <= 31)%nat
       /\ (month = 4 \/ month = 6 \/ month = 9 \/ month = 11 -> day <= 30)%nat
       /\ (month = 2 -> day <= 29)%nat
       /\ (month = 2 -> day = 29 ->
           year mod 4 = 0 /\ (year mod 100 <> 0 \/ year mod 400 = 0))%nat).
Proof.
  intros Hm.
  pose proof (isLeap_spec year) as Hleap.
  destruct month as [|[|[|[|[|[|[|[|[|[|[|[|[|m]]]]]]]]]]]]]; try lia;
    cbn [daysIn];
    try (split; [intros H; repeat split; lia | intros [H [H30 _]]; lia]).
  destruct (isLeap year) eqn:E.
  - split; [intros H | lia]. repeat split; try lia.
    all: intros; now apply Hleap.
  - split.
    + intros H. repeat split; try lia.
    + intros [H31 [_ [H29 Hl]]]. specialize (H29 eq_refl).
      destruct (Nat.eq_dec day 29) as [->|]; [|lia].
      specialize (Hl eq_refl eq_refl). apply Hleap in Hl. discriminate.
Qed.

(** X22.  [main] starts the server exactly for a [-date] made of eight
    decimal digits [YYYYMMDD] that name a day of the calendar: a month
    from 1 to 12, a day from 1 to 31, at most 30 in April, June,
    September and November, at most 29 in February, and the 29th of
    February only in a year divisible by 4 and not by 100, or divisible by
    400.  Every other value of the flag ends the process. *)
Theorem checkDate_accepts (date : string) :
  checkDate date = Listen <->
  exists y1 y2 y3 y4 m1 m2 d1 d2 : nat,
    date = dateString y1 y2 y3 y4 m1 m2 d1 d2
    /\ (y1 <= 9 /\ y2 <= 9 /\ y3 <= 9 /\ y4 <= 9
        /\ m1 <= 9 /\ m2 <= 9 /\ d1 <= 9 /\ d2 <= 9)%nat
    /\ (1 <= 10 * m1 + m2 <= 12)%nat
    /\ (1 <= 10 * d1 + d2 <= 31)%nat
    /\ (10 * m1 + m2 = 4 \/ 10 * m1 + m2 = 6 \/ 10 * m1 + m2 = 9
        \/ 10 * m1 + m2 = 11 -> 10 * d1 + d2 <= 30)%nat
    /\ (10 * m1 + m2 = 2 -> 10 * d1 + d2 <= 29)%nat
    /\ (10 * m1 + m2 = 2 -> 10 * d1 + d2 = 29 ->
        (1000 * y1 + 100 * y2 + 10 * y3 + y4) mod 4 = 0
        /\ ((1000 * y1 + 100 * y2 + 10 * y3 + y4) mod 100 <> 0
            \/ (1000 * y1 + 100 * y2 + 10 * y3 + y4) mod 400 = 0))%nat.
Proof.
  split.
  - unfold checkDate.
    destruct (String.eqb date ""); [discriminate|].
    destruct (String.length date =? 8)%nat; cbn [negb]; [|discriminate].
    destruct (parseDate date) as [[[year month] day]|] eqn:Hparse;
      [|discriminate].
    intros _. unfold parseDate in Hparse.
    destruct date as [|c1 [|c2 [|c3 [|c4 [|c5 [|c6 [|c7 [|c8 [|x rest]]]]]]]]];
      try discriminate.
    destruct (twoDigits c1 c2) as [hi|] eqn:E1; [|discriminate].
    destruct (twoDigits c3 c4) as [lo|] eqn:E2; [|discriminate].
    destruct (twoDigits c5 c6) as [mo|] eqn:E3; [|discriminate].
    destruct (twoDigits c7 c8) as [da|] eqn:E4; [|discriminate].
    destruct (((1 <=? mo) && (mo <=? 12) && (1 <=? da)
               && (da <=? daysIn mo (100 * hi + lo)))%nat) eqn:Hrange;
      [|discriminate].
    clear Hparse.
    apply andb_true_iff in Hrange as [Hrange Hd2].
    apply andb_true_iff in Hrange as [Hrange Hd1].
    apply andb_true_iff in Hrange as [Hm1 Hm2].
    apply Nat.leb_le in Hm1, Hm2, Hd1, Hd2.
    apply twoDigits_inv in E1 as [y1 [y2 [-> [-> [? [? ->]]]]]].
    apply twoDigits_inv in E2 as [y3 [y4 [-> [-> [? [? ->]]]]]].
    apply twoDigits_inv in E3 as [m1 [m2 [-> [-> [? [? ->]]]]]].
    apply twoDigits_inv in E4 as [d1 [d2 [-> [-> [? [? ->]]]]]].
    replace (100 * (10 * y1 + y2) + (10 * y3 + y4))%nat
      with (1000 * y1 + 100 * y2 + 10 * y3 + y4)%nat in Hd2 by lia.
    apply daysIn_spec in Hd2 as [H31 [H30 [H29 Hleap]]]; [|lia].
    exists y1, y2, y3, y4, m1, m2, d1, d2.
    split; [reflexivity|]. split; [repeat split; assumption|].
    split; [lia|]. split; [lia|]. split; [exact H30|]. split; assumption.
  - intros [y1 [y2 [y3 [y4 [m1 [m2 [d1 [d2
             [-> [Hdigits [Hmonth [Hday [H30 [H29 Hleap]]]]]]]]]]]]]].
    destruct Hdigits as [? [? [? [? [? [? [? ?]]]]]]].
    assert (Hd : (10 * d1 + d2
                  <= daysIn (10 * m1 + m2)
                       (1000 * y1 + 100 * y2 + 10 * y3 + y4))%nat).
    { apply daysIn_spec; [lia|]. repeat split; try assumption; try lia;
        now apply Hleap. }
    unfold checkDate, dateString. cbn [String.eqb String.length Nat.eqb negb].
    assert (Hne : Ascii.eqb (digitChar y1) (digitChar y1) = true)
      by apply Ascii.eqb_refl.
    unfold parseDate, twoDigits.
    rewrite !digit_digitChar by assumption.
    replace (100 * (10 * y1 + y2) + (10 * y3 + y4))%nat
      with (1000 * y1 + 100 * y2 + 10 * y3 + y4)%nat by lia.
    replace (((1 <=? 10 * m1 + m2) && (10 * m1 + m2 <=? 12)
              && (1 <=? 10 * d1 + d2)
              && (10 * d1 + d2
                  <=? daysIn (10 * m1 + m2)
                        (1000 * y1 + 100 * y2 + 10 * y3 + y4)))%nat)
      with true; [reflexivity|].
    symmetry. rewrite !andb_true_iff, !Nat.leb_le. lia.
Qed.

Lemma checkDate_accepts_witness :
  checkDate "20020401" = Listen
  /\ checkDate "20000229" = Listen
  /\ checkDate "20020229" = InvalidDate
  /\ checkDate "20020431" = InvalidDate
  /\ checkDate "2002041" = DateNotYYYYMMDD
  /\ checkDate "" = DateRequired.
Proof.
  split.
  - apply (proj2 (checkDate_accepts "20020401")).
    exists 2%nat, 0%nat, 0%nat, 2%nat, 0%nat, 4%nat, 0%nat, 1%nat.
    split; [reflexivity|]. simpl. lia.
  - repeat split; reflexivity.
Defined.

(** X23.  A date that [main] accepts goes into the index query as it
    is, between [&from=] and the filters: [url.QueryEscape] would not
    change it, so leaving it unescaped, as [getWaybackURL] does, cannot
    alter the query. *)
Theorem accepted_date_needs_no_escape (date : string) :
  checkDate date = Listen -> Escape.QueryEscape date = date.
Proof.
  intros H. apply checkDate_listen in H as [_ [Hdigits _]].
  unfold allDigits in Hdigits.
  induction date as [|c date IH]; [reflexivity|].
  cbn [list_ascii_of_string forallb] in Hdigits.
  apply andb_true_iff in Hdigits as [Hc Hrest].
  cbn [Escape.QueryEscape].
  assert (Hspace : Ascii.eqb c " " = false).
  { destruct (Ascii.eqb c " ") eqn:E; [|reflexivity].
    apply Ascii.eqb_eq in E. subst c. discriminate. }
  assert (Hesc : Escape.shouldEscape c = false).
  { unfold Escape.shouldEscape, Escape.isAlnum.
    unfold isDigit in Hc. rewrite Hc.
    now rewrite orb_true_r. }
  now rewrite Hspace, Hesc, (IH Hrest).
Qed.

Lemma accepted_date_needs_no_escape_witness :
  Escape.QueryEscape "20020401" = "20020401".
Proof. exact (accepted_date_needs_no_escape "20020401" eq_refl). Defined.

End StartupLaws.
